(** * A shallow embedding of the cleaning-agents simulation

    Source: [A01741660_ModMul_M1.py].  The file has two classes built on the
    Mesa agent-based-modelling library: [DummyAgent] (an agent that proposes a
    move with [intent] and commits it with [advance]) and [DummyModel] (the
    engine: construction, [spawn_dirty_tiles], [step], [print_summary]).

    Python integers are [Z]; positions are pairs of [Z] because a candidate
    position may have a negative coordinate before it is rejected.  Python
    exceptions are an explicit error result.  The two random generators the
    source uses (the module-level [random] in [spawn_dirty_tiles] and the
    model's own [self.random] behind [agent.random.choice]) are explicit
    states that are threaded through the calls. *)

From Stdlib Require Import ZArith List Bool Arith Lia FinFun.
Import ListNotations.
Open Scope Z_scope.

(* ------------------------------------------------------------------ *)
(** ** Results and exceptions *)

Inductive exn : Type :=
| IndexError      (* list index out of range, random.choice on an empty list *)
| ValueError      (* list.remove(x): x not in list *)
| OutOfBounds.    (* Mesa: point out of bounds, and space non-toroidal *)

Inductive result (A : Type) : Type :=
| Ok (a : A)
| Raise (e : exn).
Arguments Ok {A} a.
Arguments Raise {A} e.

Definition bind {A B : Type} (c : result A) (k : A -> result B) : result B :=
  match c with
  | Ok a => k a
  | Raise e => Raise e
  end.

Notation "x <- c ;; k" := (bind c (fun x => k))
  (at level 61, c at next level, right associativity).
Notation "' pat <- c ;; k" := (bind c (fun x => match x with pat => k end))
  (at level 61, pat pattern, c at next level, right associativity).

(* ------------------------------------------------------------------ *)
(** ** Coordinates *)

Definition Coordinate : Type := (Z * Z)%type.

Definition coord_eqb (p q : Coordinate) : bool :=
  (fst p =? fst q) && (snd p =? snd q).

(** [range(n)] of Python, empty when [n <= 0]. *)
Definition range (n : Z) : list Z := map Z.of_nat (seq 0 (Z.to_nat n)).

(** [len(l)] as a Python integer. *)
Definition len {A : Type} (l : list A) : Z := Z.of_nat (length l).

(** [x in l] for a list of coordinates. *)
Definition mem (x : Coordinate) (l : list Coordinate) : bool :=
  existsb (coord_eqb x) l.

(** [l.remove(x)]: drops the first occurrence, [ValueError] when absent. *)
Fixpoint list_remove (l : list Coordinate) (x : Coordinate)
  : result (list Coordinate) :=
  match l with
  | [] => Raise ValueError
  | y :: l' =>
      if coord_eqb y x then Ok l'
      else l'' <- list_remove l' x ;; Ok (y :: l'')
  end.

(* ------------------------------------------------------------------ *)
(** ** Random sources

    A generator is the sequence of its raw draws and a cursor.  A call of
    [choice] on a sequence of length [n] consumes one draw [d] and returns
    the element of index [d mod n], so every index can be chosen; on an
    empty sequence it raises [IndexError], as [random.choice] does. *)

Record Random : Type := mkRandom {
  draws : nat -> nat;
  cursor : nat }.

Definition advance_cursor (r : Random) : Random :=
  {| draws := draws r; cursor := S (cursor r) |}.

Definition choice {A : Type} (r : Random) (l : list A) : result (A * Random) :=
  match nth_error l (Nat.modulo (draws r (cursor r)) (length l)) with
  | Some a => Ok (a, advance_cursor r)
  | None => Raise IndexError
  end.

(* ------------------------------------------------------------------ *)
(** ** Module constants (lines 9-13 of the source) *)

Definition M : Z := 6.   (* Width *)
Definition N : Z := 6.   (* Height *)
Definition default_max_steps : Z := 100.
Definition default_agent_count : Z := 3.
Definition default_dirty_count : Z := 12.

(* ------------------------------------------------------------------ *)
(** ** The grid

    [MultiGrid(width, height, torus=False)].  Mesa keeps, for every cell, the
    agents standing on it, and [place_agent] / [move_agent] keep that in step
    with each agent's [pos]; the embedding keeps the agents in the model and
    reads a cell's content off their positions (see [is_cell_empty]). *)

Record MultiGrid : Type := mkGrid {
  width : Z;
  height : Z }.

(** The constructor of the grid: it allocates [width] by [height] arrays
    and raises [ValueError] for a negative dimension; a dimension of 0 gives
    a grid without cells. *)
Definition MultiGrid_init (width height : Z) : result MultiGrid :=
  if (width <? 0) || (height <? 0) then Raise ValueError
  else Ok (mkGrid width height).

Record DummyAgent : Type := mkAgent {
  unique_id : Z;
  pos : Coordinate;
  next_pos : option Coordinate;
  moves_made : Z }.

(** A Python list of length [n] accepts the index [i] iff [-n <= i < n]. *)
Definition index_ok (n i : Z) : bool := (- n <=? i) && (i <? n).

Definition out_of_bounds (g : MultiGrid) (p : Coordinate) : bool :=
  let '(x, y) := p in
  (x <? 0) || (width g <=? x) || (y <? 0) || (height g <=? y).

(** [grid.place_agent(agent, pos)]: indexes [self._grid[x][y]], a list of
    [width] columns of [height] cells, and sets [agent.pos]. *)
Definition place_agent (g : MultiGrid) (a : DummyAgent) (p : Coordinate)
  : result DummyAgent :=
  let '(x, y) := p in
  if index_ok (Z.max 0 (width g)) x && index_ok (Z.max 0 (height g)) y
  then Ok {| unique_id := unique_id a; pos := p;
             next_pos := next_pos a; moves_made := moves_made a |}
  else Raise IndexError.

(** [grid.move_agent(agent, pos)]: [torus_adj] rejects a point outside a
    non-toroidal grid, then the agent is removed and placed again. *)
Definition move_agent (g : MultiGrid) (a : DummyAgent) (p : Coordinate)
  : result DummyAgent :=
  if out_of_bounds g p then Raise OutOfBounds else place_agent g a p.

(** [grid.is_cell_empty(pos)]: no agent stands on the cell. *)
Definition is_cell_empty (ags : list DummyAgent) (p : Coordinate) : bool :=
  negb (existsb (fun a => coord_eqb (pos a) p) ags).

(* ------------------------------------------------------------------ *)
(** ** DummyAgent *)

(** [DummyAgent.__init__]: [next_pos = None], [moves_made = 0].  Mesa leaves
    [pos] unset until [place_agent], which [DummyModel.__init__] calls in the
    very next statement; the record is created with the position it is about
    to be placed on. *)
Definition DummyAgent_init (unique_id : Z) (p : Coordinate) : DummyAgent :=
  {| unique_id := unique_id; pos := p; next_pos := None; moves_made := 0 |}.

Definition get_position (a : DummyAgent) : Coordinate := pos a.

Definition in_bounds (g : MultiGrid) (p : Coordinate) : bool :=
  let '(x, y) := p in
  ((0 <=? x) && (x <? width g)) && ((0 <=? y) && (y <? height g)).

(** The eight offsets, in the order of the source. *)
Definition moves : list Coordinate :=
  [ (-1, 0);   (* left *)
    (1, 0);    (* right *)
    (0, 1);    (* up *)
    (0, -1);   (* down *)
    (-1, -1);  (* left down *)
    (1, 1);    (* right up *)
    (-1, 1);   (* left up *)
    (1, -1) ]. (* right down *)

Definition add_coord (p q : Coordinate) : Coordinate :=
  (fst p + fst q, snd p + snd q).

Definition set_next_pos (a : DummyAgent) (np : Coordinate) : DummyAgent :=
  {| unique_id := unique_id a; pos := pos a;
     next_pos := Some np; moves_made := moves_made a |}.

Definition intent (g : MultiGrid) (a : DummyAgent) (r : Random)
  : result (DummyAgent * Random) :=
  '(move, r') <- choice r moves ;;
  let new_pos := add_coord (get_position a) move in
  if in_bounds g new_pos
  then Ok (set_next_pos a new_pos, r')
  else Ok (set_next_pos a (get_position a), r').

(** [DummyAgent.step] only calls [intent]. *)
Definition agent_step := intent.

Definition count_move (a : DummyAgent) : DummyAgent :=
  {| unique_id := unique_id a; pos := pos a;
     next_pos := next_pos a; moves_made := moves_made a + 1 |}.

Definition advance (g : MultiGrid) (a : DummyAgent) : result DummyAgent :=
  match next_pos a with
  | Some np =>
      if in_bounds g np then
        if negb (coord_eqb np (pos a)) then
          a' <- move_agent g a np ;;
          Ok (count_move a')
        else Ok a
      else Ok a
  | None => Ok a
  end.

(* ------------------------------------------------------------------ *)
(** ** DummyModel *)

(** What [print_summary] prints: the headline of the branch taken, then the
    number of tiles cleaned and the total of the agents' moves. *)
Inductive Summary : Type :=
| AllCleaned (at_step : option Z) (tiles_cleaned total_moves : Z)
| MaxStepsReached (budget at_step tiles_cleaned total_moves : Z).

(** [agents] is the value list of the [_agents] dictionary, in insertion
    order; the dictionary is filled once, by [__init__], with keys
    [0 .. agent_count - 1], and none of its agent values is [None]. *)
Record DummyModel : Type := mkModel {
  grid : MultiGrid;
  agents : list DummyAgent;
  dirty_tiles : list Coordinate;
  dirty_count : Z;
  max_steps : Z;
  current_step : Z;
  done : bool;
  cleaned_count : Z;
  last_cleaned_step : option Z;
  random : Random }.

Definition set_dirty_tiles (m : DummyModel) (d : list Coordinate) : DummyModel :=
  mkModel (grid m) (agents m) d (dirty_count m) (max_steps m) (current_step m)
          (done m) (cleaned_count m) (last_cleaned_step m) (random m).

Definition set_agents (m : DummyModel) (ags : list DummyAgent) (r : Random)
  : DummyModel :=
  mkModel (grid m) ags (dirty_tiles m) (dirty_count m) (max_steps m)
          (current_step m) (done m) (cleaned_count m) (last_cleaned_step m) r.

(** One pass of the removal loop's body. *)
Definition set_cleaned (m : DummyModel) (d : list Coordinate) : DummyModel :=
  mkModel (grid m) (agents m) d (dirty_count m) (max_steps m) (current_step m)
          (done m) (cleaned_count m + 1) (Some (current_step m + 1)) (random m).

Definition set_current_step (m : DummyModel) (s : Z) : DummyModel :=
  mkModel (grid m) (agents m) (dirty_tiles m) (dirty_count m) (max_steps m) s
          (done m) (cleaned_count m) (last_cleaned_step m) (random m).

Definition set_done (m : DummyModel) (b : bool) : DummyModel :=
  mkModel (grid m) (agents m) (dirty_tiles m) (dirty_count m) (max_steps m)
          (current_step m) b (cleaned_count m) (last_cleaned_step m) (random m).

(** The list comprehension of [spawn_dirty_tiles]: [x] outer, [y] inner. *)
Definition free_cells (m : DummyModel) : list Coordinate :=
  flat_map
    (fun x =>
       filter (fun c => is_cell_empty (agents m) c && negb (mem c (dirty_tiles m)))
              (map (fun y => (x, y)) (range (height (grid m)))))
    (range (width (grid m))).

(** The loop of [spawn_dirty_tiles]; the iteration count is fixed before the
    first pass.  [dirty_tiles[-1]] is the cell appended just before. *)
Fixpoint spawn_loop (n : nat) (dirty free : list Coordinate) (r : Random)
  : result (list Coordinate * Random) :=
  match n with
  | O => Ok (dirty, r)
  | S n' =>
      '(c, r') <- choice r free ;;
      free' <- list_remove free c ;;
      spawn_loop n' (dirty ++ [c]) free' r'
  end.

Definition spawn_dirty_tiles (m : DummyModel) (r : Random)
  : result (DummyModel * Random) :=
  let needed := dirty_count m - len (dirty_tiles m) in
  let free := free_cells m in
  '(dirty, r') <- spawn_loop (Z.to_nat (Z.min needed (len free)))
                             (dirty_tiles m) free r ;;
  Ok (set_dirty_tiles m dirty, r').

(** The agent loop of [__init__]: every agent is placed on [(0, N-1)], with
    the module constant [N], whatever the [height] argument is. *)
Fixpoint place_agents (g : MultiGrid) (ids : list Z) : result (list DummyAgent) :=
  match ids with
  | [] => Ok []
  | i :: ids' =>
      a <- place_agent g (DummyAgent_init i (0, N - 1)) (0, N - 1) ;;
      rest <- place_agents g ids' ;;
      Ok (a :: rest)
  end.

(** [DummyModel.__init__].  [global_random] is the state of the module-level
    generator when [spawn_dirty_tiles] is reached, [model_random] the
    generator the model holds after [super().__init__()].  [spawn_dirty_tiles]
    reads only the grid, [dirty_tiles] and [dirty_count], so building the
    record before the call does not change what it does. *)
Definition DummyModel_init
    (height width agent_count dirty_count max_steps : Z)
    (global_random model_random : Random) : result (DummyModel * Random) :=
  g <- MultiGrid_init width height ;;
  ags <- place_agents g (range agent_count) ;;
  spawn_dirty_tiles
    (mkModel g ags [] dirty_count max_steps 0 false 0 None model_random)
    global_random.

(** [sum(...)] of Python: left to right from 0. *)
Definition sum (l : list Z) : Z := fold_left Z.add l 0.

Definition total_moves (ags : list DummyAgent) : Z := sum (map moves_made ags).

Definition is_nil {A : Type} (l : list A) : bool :=
  match l with [] => true | _ :: _ => false end.

Definition print_summary (m : DummyModel) : Summary :=
  let total := total_moves (agents m) in
  if is_nil (dirty_tiles m)
  then AllCleaned (last_cleaned_step m) (cleaned_count m) total
  else MaxStepsReached (max_steps m) (current_step m) (cleaned_count m) total.

(** [for agent in self.agents: agent.step()] *)
Fixpoint step_agents (g : MultiGrid) (ags : list DummyAgent) (r : Random)
  : result (list DummyAgent * Random) :=
  match ags with
  | [] => Ok ([], r)
  | a :: rest =>
      '(a', r1) <- agent_step g a r ;;
      '(rest', r2) <- step_agents g rest r1 ;;
      Ok (a' :: rest', r2)
  end.

(** [for agent in self.agents: agent.advance()] *)
Fixpoint advance_agents (g : MultiGrid) (ags : list DummyAgent)
  : result (list DummyAgent) :=
  match ags with
  | [] => Ok []
  | a :: rest =>
      a' <- advance g a ;;
      rest' <- advance_agents g rest ;;
      Ok (a' :: rest')
  end.

(** The inner loop of the marking pass: some agent stands on [tile]. *)
Definition occupied (ags : list DummyAgent) (tile : Coordinate) : bool :=
  existsb (fun a => coord_eqb (pos a) tile) ags.

Definition mark_tiles (ags : list DummyAgent) (dirty : list Coordinate)
  : list Coordinate :=
  filter (occupied ags) dirty.

(** [for tile in to_remove: ...] *)
Fixpoint remove_tiles (to_remove : list Coordinate) (m : DummyModel)
  : result DummyModel :=
  match to_remove with
  | [] => Ok m
  | tile :: rest =>
      d <- list_remove (dirty_tiles m) tile ;;
      remove_tiles rest (set_cleaned m d)
  end.

(** [DummyModel.step]; the second component is what the call printed. *)
Definition step (m : DummyModel) : result (DummyModel * list Summary) :=
  if done m then Ok (m, [])
  else
    '(ags1, r') <- step_agents (grid m) (agents m) (random m) ;;
    ags2 <- advance_agents (grid m) ags1 ;;
    let m1 := set_agents m ags2 r' in
    let to_remove := mark_tiles (agents m1) (dirty_tiles m1) in
    m2 <- remove_tiles to_remove m1 ;;
    let m3 := set_current_step m2 (current_step m2 + 1) in
    if is_nil (dirty_tiles m3) || (max_steps m3 <=? current_step m3)
    then let m4 := set_done m3 true in Ok (m4, [print_summary m4])
    else Ok (m3, []).

(** [n] successive calls of [step]: the states after each call, and
    everything printed. *)
Fixpoint run (n : nat) (m : DummyModel)
  : result (list DummyModel * list Summary) :=
  match n with
  | O => Ok ([], [])
  | S n' =>
      '(m', out) <- step m ;;
      '(ms, outs) <- run n' m' ;;
      Ok (m' :: ms, out ++ outs)
  end.

(** States reachable from [m0] by calls of [step]. *)
Inductive reachable_from (m0 : DummyModel) : DummyModel -> Prop :=
| reach_init : reachable_from m0 m0
| reach_step (m m' : DummyModel) (out : list Summary) :
    reachable_from m0 m -> step m = Ok (m', out) -> reachable_from m0 m'.


(** A generator that always draws [k], and one that draws 0, 1, 2, ... *)
Definition const_random (k : nat) : Random := mkRandom (fun _ => k) 0.
Definition count_random : Random := mkRandom (fun i => i) 0.

(* ------------------------------------------------------------------ *)
(** ** Vocabulary of the statements

    Closed forms of what the calls return, the invariants, and the
    relations the theorems are stated with. *)

(** [len] is kept folded by [simpl]. *)
#[global] Arguments len {A} l : simpl never.

(** The position an agent asks for when it drew the offset [mv]. *)
Definition intended (g : MultiGrid) (a : DummyAgent) (mv : Coordinate)
  : Coordinate :=
  if in_bounds g (add_coord (pos a) mv) then add_coord (pos a) mv else pos a.

(** The agent after the commit phase. *)
Definition committed (g : MultiGrid) (a : DummyAgent) : DummyAgent :=
  match next_pos a with
  | Some np =>
      if in_bounds g np && negb (coord_eqb np (pos a))
      then mkAgent (unique_id a) np (next_pos a) (moves_made a + 1)
      else a
  | None => a
  end.

(** One agent across the two phases of a tick. *)
Definition tick_agent (g : MultiGrid) (a a' : DummyAgent) : Prop :=
  exists mv, In mv moves /\ a' = committed g (set_next_pos a (intended g a mv)).

(** The generator [r] after [k] more draws. *)
Definition drawn (r : Random) (k : nat) : Random :=
  mkRandom (draws r) (cursor r + k)%nat.

(** The model after the removal loop took out [removed] and kept [kept]. *)
Definition after_cleaning (m : DummyModel) (removed kept : list Coordinate)
  : DummyModel :=
  mkModel (grid m) (agents m) kept (dirty_count m) (max_steps m)
          (current_step m) (done m) (cleaned_count m + len removed)
          (match removed with
           | [] => last_cleaned_step m
           | _ :: _ => Some (current_step m + 1)
           end)
          (random m).

(** The counter update and the termination test at the end of [step]. *)
Definition finish (m2 : DummyModel) : DummyModel * list Summary :=
  let m3 := set_current_step m2 (current_step m2 + 1) in
  if is_nil (dirty_tiles m3) || (max_steps m3 <=? current_step m3)
  then (set_done m3 true, [print_summary (set_done m3 true)])
  else (m3, []).

(** The model after the two agent loops and the two tile loops of [step],
    when the commit phase left the agents as [ags']. *)
Definition after_tick (m : DummyModel) (ags' : list DummyAgent) : DummyModel :=
  after_cleaning (set_agents m ags' (drawn (random m) (length (agents m))))
                 (filter (occupied ags') (dirty_tiles m))
                 (filter (fun t => negb (occupied ags' t)) (dirty_tiles m)).

(** Construction of the agents. *)
Definition fresh_agents (ids : list Z) : list DummyAgent :=
  map (fun i => DummyAgent_init i (0, N - 1)) ids.

(** The model [__init__] hands to [spawn_dirty_tiles]. *)
Definition blank_model (height width agent_count dirty_count max_steps : Z)
    (model_random : Random) : DummyModel :=
  mkModel (mkGrid width height) (fresh_agents (range agent_count)) []
          dirty_count max_steps 0 false 0 None model_random.

(** The state [m'] and output [out] of a call of [step] on a running model
    whose agents end the commit phase as [ags']. *)
Record tick_result (m : DummyModel) (ags' : list DummyAgent)
       (m' : DummyModel) (out : list Summary) : Prop := {
  tr_agents_rel : Forall2 (tick_agent (grid m)) (agents m) ags';
  tr_grid : grid m' = grid m;
  tr_agents : agents m' = ags';
  tr_dirty : dirty_tiles m'
             = filter (fun t => negb (occupied ags' t)) (dirty_tiles m);
  tr_dirty_count : dirty_count m' = dirty_count m;
  tr_max_steps : max_steps m' = max_steps m;
  tr_current_step : current_step m' = current_step m + 1;
  tr_cleaned : cleaned_count m'
               = cleaned_count m + len (filter (occupied ags') (dirty_tiles m));
  tr_last : last_cleaned_step m'
            = match filter (occupied ags') (dirty_tiles m) with
              | [] => last_cleaned_step m
              | _ :: _ => Some (current_step m + 1)
              end;
  tr_random : random m' = drawn (random m) (length (agents m));
  tr_done : done m'
            = is_nil (dirty_tiles m') || (max_steps m' <=? current_step m');
  tr_out : out = if done m' then [print_summary m'] else [] }.

(** The two invariants of the reachable states. *)
Definition agents_in_grid (m : DummyModel) : Prop :=
  Forall (fun a => in_bounds (grid m) (pos a) = true) (agents m).

Definition no_agent_on_dirt (m : DummyModel) : Prop :=
  forall t, In t (dirty_tiles m) -> occupied (agents m) t = false.

(** Equality of coordinates is decidable (for [count_occ]). *)
Definition coord_eq_dec (p q : Coordinate) : {p = q} + {p <> q}.
Proof. decide equality; apply Z.eq_dec. Defined.

(** A model and a successor state to instantiate the statements on: the
    default configuration of the source, with generators that draw
    0, 1, 2, ... *)
Definition demo_model : DummyModel :=
  Eval vm_compute in
    match DummyModel_init N M default_agent_count default_dirty_count
                          default_max_steps count_random count_random with
    | Ok (m, _) => m
    | Raise _ => blank_model 0 0 0 0 0 count_random
    end.

Definition demo_next : DummyModel :=
  Eval vm_compute in
    match step demo_model with
    | Ok (m, _) => m
    | Raise _ => demo_model
    end.

(** The engine state [RUNNING]. *)
Definition running (m : DummyModel) : Prop := done m = false.

(** 1 when the position differs between two snapshots of an agent. *)
Definition moved (a a' : DummyAgent) : Z :=
  if coord_eqb (pos a') (pos a) then 0 else 1.

(** The agents, taken in order, that changed position between two states. *)
Fixpoint position_changes (ags ags' : list DummyAgent) : Z :=
  match ags, ags' with
  | a :: rest, a' :: rest' => moved a a' + position_changes rest rest'
  | _, _ => 0
  end.

(** The position changes seen by a caller that looks at the agents before
    the first tick and after each tick. *)
Fixpoint observed_changes (m : DummyModel) (trace : list DummyModel) : Z :=
  match trace with
  | [] => 0
  | m' :: rest =>
      position_changes (agents m) (agents m') + observed_changes m' rest
  end.

(** An agent before and after a tick. *)
Definition commit_rel (a a' : DummyAgent) : Prop :=
  unique_id a' = unique_id a /\
  (pos a' <> pos a <-> moves_made a' = moves_made a + 1) /\
  (pos a' = pos a <-> moves_made a' = moves_made a).




(* ------------------------------------------------------------------ *)
(** ** The animation driver

    [animate_agents] hands [update] to the animation with
    [frames = model.max_steps + 1], that is the frame numbers
    [range(max_steps + 1)], in order.  The drawing calls of [update] read the
    model (dirty tiles, agents, positions, identifiers) and do not change
    it; what [update] does to the model is its first statement. *)

(** [update(frame)]: [if frame > 0 and not model.done: model.step()]. *)
Definition update (frame : Z) (m : DummyModel)
  : result (DummyModel * list Summary) :=
  if (0 <? frame) && negb (done m) then step m else Ok (m, []).

(** [update] called on each frame number of a list, in order. *)
Fixpoint play (frames : list Z) (m : DummyModel)
  : result (DummyModel * list Summary) :=
  match frames with
  | [] => Ok (m, [])
  | f :: rest =>
      '(m', out) <- update f m ;;
      '(m'', outs) <- play rest m' ;;
      Ok (m'', out ++ outs)
  end.

(** [animate_agents] up to the end of [ani.save]: one pass over the
    frames, each grabbed after its [update]; the writer then saves the
    frames it holds, starting from the first one, and raises [IndexError]
    when it holds none. *)
Definition animate_agents (m : DummyModel)
  : result (DummyModel * list Summary) :=
  let frames := range (max_steps m + 1) in
  '(m', outs) <- play frames m ;;
  if is_nil frames then Raise IndexError else Ok (m', outs).

(* ------------------------------------------------------------------ *)
(** ** Vocabulary of the further statements *)



(** What holds of a state [m] reached from the constructed state [m0]. *)
Record history_inv (m0 m : DummyModel) : Prop := {
  hi_cs_nonneg : 0 <= current_step m;
  hi_cs_zero : current_step m = 0 -> m = m0;
  hi_running : done m = false ->
               current_step m = 0 \/
               (current_step m < max_steps m /\ dirty_tiles m <> []);
  hi_done : done m = true ->
            1 <= current_step m /\
            (dirty_tiles m = [] \/ max_steps m <= current_step m);
  hi_cs_bound : current_step m <= Z.max 1 (max_steps m);
  hi_cleaned_nonneg : 0 <= cleaned_count m;
  hi_last_none : last_cleaned_step m = None <-> cleaned_count m = 0;
  hi_last_some : forall s, last_cleaned_step m = Some s ->
                           1 <= s <= current_step m;
  hi_last_all : dirty_tiles m = [] -> dirty_tiles m0 <> [] ->
                last_cleaned_step m = Some (current_step m);
  hi_moves : Forall (fun a => 0 <= moves_made a <= current_step m) (agents m);
  hi_ids : map unique_id (agents m) = map unique_id (agents m0);
  hi_next : 1 <= current_step m ->
            Forall (fun a => next_pos a = Some (pos a)) (agents m);
  hi_dirty_incl : incl (dirty_tiles m) (dirty_tiles m0) }.

(** All the cells of a grid, in the order of the comprehension of
    [spawn_dirty_tiles]. *)
Definition all_cells (g : MultiGrid) : list Coordinate :=
  flat_map (fun x => map (fun y => (x, y)) (range (height g))) (range (width g)).

(** A model with one dirty tile, next to the start cell, that the three
    agents reach on the first tick; and a model with a budget of one tick. *)
Definition one_tile_model : DummyModel :=
  Eval vm_compute in
    match DummyModel_init N M 3 1 100 (const_random 10) (const_random 1) with
    | Ok (m, _) => m
    | Raise _ => blank_model 0 0 0 0 0 count_random
    end.

Definition one_tile_next : DummyModel :=
  Eval vm_compute in
    match step one_tile_model with
    | Ok (m, _) => m
    | Raise _ => one_tile_model
    end.

Definition one_tick_model : DummyModel :=
  Eval vm_compute in
    match DummyModel_init N M 3 12 1 count_random count_random with
    | Ok (m, _) => m
    | Raise _ => blank_model 0 0 0 0 0 count_random
    end.

Definition one_tick_next : DummyModel :=
  Eval vm_compute in
    match step one_tick_model with
    | Ok (m, _) => m
    | Raise _ => one_tick_model
    end.

(* ------------------------------------------------------------------ *)
(** * Basic facts about the helpers *)

Lemma coord_eqb_eq (p q : Coordinate) : coord_eqb p q = true <-> p = q.
Proof.
  destruct p as [x y], q as [x' y']; unfold coord_eqb; simpl.
  rewrite andb_true_iff, !Z.eqb_eq. split.
  - intros [-> ->]; reflexivity.
  - intros H; inversion H; auto.
Qed.

Lemma coord_eqb_refl (p : Coordinate) : coord_eqb p p = true.
Proof. apply coord_eqb_eq; reflexivity. Qed.

Lemma coord_eqb_neq (p q : Coordinate) : coord_eqb p q = false <-> p <> q.
Proof.
  rewrite <- coord_eqb_eq. destruct (coord_eqb p q); split; congruence.
Qed.


Lemma mem_In (x : Coordinate) (l : list Coordinate) : mem x l = true <-> In x l.
Proof.
  unfold mem. rewrite existsb_exists. split.
  - intros [y [Hy He]]. apply coord_eqb_eq in He. now subst.
  - intros H. exists x. split; [assumption | apply coord_eqb_refl].
Qed.

Lemma occupied_iff (ags : list DummyAgent) (t : Coordinate) :
  occupied ags t = true <-> exists a, In a ags /\ pos a = t.
Proof.
  unfold occupied. rewrite existsb_exists.
  split; intros [a [Ha He]]; exists a; split; auto; now apply coord_eqb_eq.
Qed.

Lemma in_bounds_iff (g : MultiGrid) (x y : Z) :
  in_bounds g (x, y) = true <-> 0 <= x < width g /\ 0 <= y < height g.
Proof. unfold in_bounds. rewrite !andb_true_iff. lia. Qed.

Lemma in_bounds_not_out (g : MultiGrid) (p : Coordinate) :
  in_bounds g p = true -> out_of_bounds g p = false.
Proof.
  destruct p as [x y]. rewrite in_bounds_iff. unfold out_of_bounds.
  intros H. rewrite !orb_false_iff. lia.
Qed.

Lemma sum_from (l : list Z) (k : Z) : fold_left Z.add l k = k + sum l.
Proof.
  unfold sum. revert k. induction l as [|x l IH]; intros k; simpl.
  - lia.
  - rewrite IH, (IH x). lia.
Qed.

Lemma sum_cons (x : Z) (l : list Z) : sum (x :: l) = x + sum l.
Proof. unfold sum at 1. simpl. apply sum_from. Qed.

Lemma range_In (n x : Z) : In x (range n) <-> 0 <= x < n.
Proof.
  unfold range. rewrite in_map_iff. split.
  - intros [k [<- Hk]]. apply in_seq in Hk. lia.
  - intros H. exists (Z.to_nat x). split; [lia | apply in_seq; lia].
Qed.

Lemma range_NoDup (n : Z) : NoDup (range n).
Proof.
  unfold range. apply Injective_map_NoDup.
  - intros a b H. lia.
  - apply seq_NoDup.
Qed.

Lemma len_nil {A : Type} : len (@nil A) = 0.
Proof. reflexivity. Qed.

Lemma len_cons {A : Type} (x : A) (l : list A) : len (x :: l) = len l + 1.
Proof. unfold len. simpl length. lia. Qed.

Lemma len_app {A : Type} (l l' : list A) : len (l ++ l') = len l + len l'.
Proof. unfold len. rewrite length_app. lia. Qed.

Lemma len_nonneg {A : Type} (l : list A) : 0 <= len l.
Proof. unfold len. lia. Qed.

(* ------------------------------------------------------------------ *)
(** * What the calls return *)

Lemma choice_ok {A : Type} (r : Random) (l : list A) :
  l <> [] -> exists a, In a l /\ choice r l = Ok (a, advance_cursor r).
Proof.
  intros Hl. unfold choice.
  destruct (nth_error l (draws r (cursor r) mod length l)%nat) as [a|] eqn:E.
  - exists a. split; [eapply nth_error_In; eauto | reflexivity].
  - apply nth_error_None in E. destruct l as [|x l]; [congruence|].
    pose proof (Nat.mod_upper_bound (draws r (cursor r)) (length (x :: l))) as Hb.
    simpl in *. lia.
Qed.

Lemma intent_spec (g : MultiGrid) (a : DummyAgent) (r : Random) :
  exists mv, In mv moves /\ choice r moves = Ok (mv, advance_cursor r) /\
    intent g a r = Ok (set_next_pos a (intended g a mv), advance_cursor r).
Proof.
  destruct (choice_ok r moves) as [mv [Hin Hc]]; [discriminate|].
  exists mv. split; [assumption|]. split; [assumption|].
  unfold intent, intended, get_position. rewrite Hc. cbn [bind].
  destruct (in_bounds g (add_coord (pos a) mv)); reflexivity.
Qed.

Lemma place_agent_in_bounds (g : MultiGrid) (a : DummyAgent) (p : Coordinate) :
  in_bounds g p = true ->
  place_agent g a p = Ok (mkAgent (unique_id a) p (next_pos a) (moves_made a)).
Proof.
  destruct p as [x y]. rewrite in_bounds_iff. intros H. unfold place_agent.
  replace (index_ok (Z.max 0 (width g)) x && index_ok (Z.max 0 (height g)) y)
    with true; [reflexivity|].
  symmetry. unfold index_ok. rewrite !andb_true_iff. lia.
Qed.

Lemma advance_spec (g : MultiGrid) (a : DummyAgent) :
  advance g a = Ok (committed g a).
Proof.
  unfold advance, committed. destruct (next_pos a) as [np|] eqn:E; [|reflexivity].
  destruct (in_bounds g np) eqn:Hb; simpl; [|reflexivity].
  destruct (coord_eqb np (pos a)); simpl; [reflexivity|].
  unfold move_agent. rewrite (in_bounds_not_out _ _ Hb).
  rewrite (place_agent_in_bounds _ _ _ Hb). simpl. unfold count_move. simpl.
  now rewrite E.
Qed.

Lemma advance_agents_spec (g : MultiGrid) (ags : list DummyAgent) :
  advance_agents g ags = Ok (map (committed g) ags).
Proof.
  induction ags as [|a ags IH]; simpl; [reflexivity|].
  now rewrite advance_spec, IH.
Qed.

Lemma step_agents_spec (g : MultiGrid) (ags : list DummyAgent) (r : Random) :
  exists ags1, step_agents g ags r = Ok (ags1, drawn r (length ags)) /\
    Forall2 (tick_agent g) ags (map (committed g) ags1).
Proof.
  revert r. induction ags as [|a ags IH]; intros r; simpl.
  - exists []. split; [|constructor]. unfold drawn.
    destruct r as [d c]; simpl. now rewrite Nat.add_0_r.
  - destruct (intent_spec g a r) as [mv [Hin [_ Hi]]].
    destruct (IH (advance_cursor r)) as [ags1 [Hs Hf]].
    exists (set_next_pos a (intended g a mv) :: ags1). split.
    + unfold agent_step. rewrite Hi. simpl. rewrite Hs. simpl.
      unfold drawn, advance_cursor. simpl. do 3 f_equal. lia.
    + simpl. constructor; [|assumption]. exists mv. split; auto.
Qed.

Lemma list_remove_app (pre l : list Coordinate) (x : Coordinate) :
  ~ In x pre -> list_remove (pre ++ x :: l) x = Ok (pre ++ l).
Proof.
  induction pre as [|y pre IH]; intros Hn; simpl.
  - now rewrite coord_eqb_refl.
  - destruct (coord_eqb y x) eqn:E.
    + apply coord_eqb_eq in E. subst. exfalso. apply Hn. now left.
    + rewrite IH; [reflexivity|]. intros H. apply Hn. now right.
Qed.

Lemma remove_tiles_filter_gen (p : Coordinate -> bool) (l pre : list Coordinate)
    (m : DummyModel) :
  (forall x, In x pre -> p x = false) ->
  dirty_tiles m = pre ++ l ->
  remove_tiles (filter p l) m
  = Ok (after_cleaning m (filter p l) (pre ++ filter (fun t => negb (p t)) l)).
Proof.
  revert pre m. induction l as [|x l IH]; intros pre m Hpre Hd; simpl.
  - unfold after_cleaning. rewrite len_nil, Z.add_0_r, <- Hd.
    destruct m; reflexivity.
  - destruct (p x) eqn:Hp; simpl.
    + rewrite Hd, list_remove_app.
      2:{ intros Hin. apply Hpre in Hin. congruence. }
      simpl. rewrite (IH pre); [|assumption|reflexivity].
      unfold after_cleaning, set_cleaned. simpl. rewrite len_cons.
      f_equal. f_equal; [lia|]. destruct (filter p l); reflexivity.
    + rewrite (IH (pre ++ [x])).
      * now rewrite <- app_assoc.
      * intros y Hy. apply in_app_or in Hy. destruct Hy as [Hy|[<-|[]]]; auto.
      * now rewrite <- app_assoc.
Qed.

Lemma remove_tiles_filter (p : Coordinate -> bool) (m : DummyModel) :
  remove_tiles (filter p (dirty_tiles m)) m
  = Ok (after_cleaning m (filter p (dirty_tiles m))
                       (filter (fun t => negb (p t)) (dirty_tiles m))).
Proof. apply (remove_tiles_filter_gen p (dirty_tiles m) []); [intros x []|reflexivity]. Qed.

Lemma step_phases (m : DummyModel) :
  done m = false ->
  exists ags1,
    step_agents (grid m) (agents m) (random m)
    = Ok (ags1, drawn (random m) (length (agents m))) /\
    advance_agents (grid m) ags1 = Ok (map (committed (grid m)) ags1) /\
    Forall2 (tick_agent (grid m)) (agents m) (map (committed (grid m)) ags1) /\
    step m = Ok (finish (after_tick m (map (committed (grid m)) ags1))).
Proof.
  intros Hd. unfold step. rewrite Hd.
  destruct (step_agents_spec (grid m) (agents m) (random m)) as [ags1 [Hs Hf]].
  exists ags1. split; [assumption|]. split; [apply advance_agents_spec|].
  split; [assumption|].
  rewrite Hs. simpl. rewrite advance_agents_spec. simpl.
  unfold mark_tiles. simpl.
  pose proof (remove_tiles_filter (occupied (map (committed (grid m)) ags1))
    (set_agents m (map (committed (grid m)) ags1)
                (drawn (random m) (length (agents m))))) as Hr.
  simpl in Hr. rewrite Hr. unfold finish, after_tick. simpl.
  match goal with |- context [if ?c then _ else _] => destruct c end; reflexivity.
Qed.

Lemma step_spec (m : DummyModel) :
  done m = false ->
  exists ags', Forall2 (tick_agent (grid m)) (agents m) ags' /\
    step m = Ok (finish (after_tick m ags')).
Proof.
  intros Hd. destruct (step_phases m Hd) as [ags1 [_ [_ [Hf Hs]]]]. eauto.
Qed.

Lemma step_done (m : DummyModel) : done m = true -> step m = Ok (m, []).
Proof. intros Hd. unfold step. now rewrite Hd. Qed.

Lemma step_total (m : DummyModel) : exists m' out, step m = Ok (m', out).
Proof.
  destruct (done m) eqn:Hd.
  - exists m, []. now apply step_done.
  - destruct (step_spec m Hd) as [ags' [_ Hs]].
    destruct (finish (after_tick m ags')) as [m' out] eqn:E.
    exists m', out. now rewrite Hs.
Qed.

Lemma tick_agent_cases (g : MultiGrid) (a a' : DummyAgent) :
  tick_agent g a a' ->
  unique_id a' = unique_id a /\
  ((pos a' = pos a /\ moves_made a' = moves_made a) \/
   (pos a' <> pos a /\ in_bounds g (pos a') = true /\
    moves_made a' = moves_made a + 1 /\
    exists mv, In mv moves /\ pos a' = add_coord (pos a) mv)).
Proof.
  intros [mv [Hin ->]]. unfold committed, intended, set_next_pos.
  cbn [next_pos pos].
  destruct (in_bounds g (add_coord (pos a) mv)) eqn:Hb.
  - rewrite Hb. cbn [andb].
    destruct (coord_eqb (add_coord (pos a) mv) (pos a)) eqn:He;
      cbn [negb unique_id pos moves_made].
    + split; [reflexivity|]. left. split; reflexivity.
    + split; [reflexivity|]. right. apply coord_eqb_neq in He.
      repeat split; auto. exists mv. split; auto.
  - rewrite coord_eqb_refl, andb_false_r. cbn [unique_id pos moves_made].
    split; [reflexivity|]. left. split; reflexivity.
Qed.

Lemma place_agent_start (g : MultiGrid) (i : Z) :
  place_agent g (DummyAgent_init i (0, N - 1)) (0, N - 1)
  = if in_bounds g (0, N - 1) then Ok (DummyAgent_init i (0, N - 1))
    else Raise IndexError.
Proof.
  unfold place_agent, in_bounds, index_ok, N. simpl.
  destruct (0 <? width g) eqn:Hw, (5 <? height g) eqn:Hh;
    rewrite ?Z.ltb_lt, ?Z.ltb_ge in Hw, Hh;
    match goal with
    | |- (if ?c then _ else _) = _ =>
        let E := fresh in
        destruct c eqn:E; rewrite ?andb_true_iff, ?andb_false_iff in E;
        rewrite ?Z.leb_le, ?Z.ltb_lt, ?Z.leb_gt, ?Z.ltb_ge in E;
        try reflexivity; exfalso; lia
    end.
Qed.

Lemma place_agents_in_bounds (g : MultiGrid) (ids : list Z) :
  in_bounds g (0, N - 1) = true -> place_agents g ids = Ok (fresh_agents ids).
Proof.
  intros Hb. induction ids as [|i ids IH]; cbn [place_agents]; [reflexivity|].
  rewrite place_agent_start, Hb. cbn [bind]. now rewrite IH.
Qed.

Lemma place_agents_out (g : MultiGrid) (ids : list Z) :
  in_bounds g (0, N - 1) = false -> ids <> [] ->
  place_agents g ids = Raise IndexError.
Proof.
  intros Hb Hi. destruct ids as [|i ids]; [congruence|]. cbn [place_agents].
  now rewrite place_agent_start, Hb.
Qed.

Lemma place_agents_inv (g : MultiGrid) (ids : list Z) (ags : list DummyAgent) :
  place_agents g ids = Ok ags ->
  ags = fresh_agents ids /\ (ids <> [] -> in_bounds g (0, N - 1) = true).
Proof.
  intros H. destruct (in_bounds g (0, N - 1)) eqn:Hb.
  - rewrite place_agents_in_bounds in H by assumption. split; [congruence|auto].
  - destruct ids as [|i ids].
    + simpl in H. inversion H. split; [reflexivity|]. intros Hn. congruence.
    + rewrite place_agents_out in H by (auto; discriminate). discriminate.
Qed.

(** Removing a member of a duplicate-free list. *)
Lemma list_remove_In (l : list Coordinate) (x : Coordinate) :
  In x l -> NoDup l ->
  exists l', list_remove l x = Ok l' /\ length l = S (length l') /\
    NoDup l' /\ ~ In x l' /\ incl l' l.
Proof.
  intros Hin Hnd. apply in_split in Hin. destruct Hin as [l1 [l2 ->]].
  pose proof (NoDup_remove_1 _ _ _ Hnd) as H1.
  pose proof (NoDup_remove_2 _ _ _ Hnd) as H2.
  exists (l1 ++ l2). split; [|split; [|split; [|split]]]; auto.
  - apply list_remove_app. intros H. apply H2. apply in_or_app. now left.
  - rewrite !length_app. simpl. lia.
  - intros y Hy. apply in_app_or in Hy. apply in_or_app.
    destruct Hy; [left|right; right]; assumption.
Qed.

Lemma spawn_loop_spec (n : nat) :
  forall (dirty free : list Coordinate) (r : Random),
    (n <= length free)%nat -> NoDup free ->
    exists new, spawn_loop n dirty free r = Ok (dirty ++ new, drawn r n) /\
      length new = n /\ NoDup new /\ incl new free.
Proof.
  induction n as [|n IH]; intros dirty free r Hn Hnd; simpl.
  - exists []. rewrite app_nil_r. repeat split; try constructor.
    + unfold drawn. destruct r; simpl. now rewrite Nat.add_0_r.
    + intros x [].
  - destruct (choice_ok r free) as [c [Hc Hch]].
    { intros ->. simpl in Hn. lia. }
    destruct (list_remove_In free c Hc Hnd) as [free' [Hr [Hl [Hnd' [Hnc Hi]]]]].
    destruct (IH (dirty ++ [c]) free' (advance_cursor r)) as [new [Hs [Hln [Hndn Hin]]]];
      [lia | assumption |].
    exists (c :: new). rewrite Hch. simpl. rewrite Hr. simpl. rewrite Hs.
    split; [|split; [|split]].
    + rewrite <- app_assoc. simpl. unfold drawn, advance_cursor. simpl.
      do 3 f_equal. lia.
    + simpl. now rewrite Hln.
    + constructor; [|assumption]. intros H. apply Hnc. now apply Hin.
    + intros y [<-|Hy]; [assumption|]. apply Hi. now apply Hin.
Qed.

Lemma free_cells_In (m : DummyModel) (x y : Z) :
  In (x, y) (free_cells m) <->
  (0 <= x < width (grid m) /\ 0 <= y < height (grid m)) /\
  is_cell_empty (agents m) (x, y) = true /\ ~ In (x, y) (dirty_tiles m).
Proof.
  unfold free_cells. rewrite in_flat_map. split.
  - intros [x' [Hx' Hf]]. apply filter_In in Hf. destruct Hf as [Hm Hp].
    apply in_map_iff in Hm. destruct Hm as [y' [Heq Hy']].
    inversion Heq; subst. apply range_In in Hx', Hy'.
    apply andb_true_iff in Hp. destruct Hp as [He Hd].
    repeat split; try lia; auto.
    intros Hin. apply mem_In in Hin. rewrite Hin in Hd. discriminate.
  - intros [[Hx Hy] [He Hd]]. exists x. split; [now apply range_In|].
    apply filter_In. split.
    + apply in_map_iff. exists y. split; [reflexivity|now apply range_In].
    + rewrite He. simpl. destruct (mem (x, y) (dirty_tiles m)) eqn:E; auto.
      apply mem_In in E. contradiction.
Qed.

Lemma free_cells_NoDup (m : DummyModel) : NoDup (free_cells m).
Proof.
  unfold free_cells. generalize (range_NoDup (width (grid m))).
  induction (range (width (grid m))) as [|x xs IH]; intros Hnd; simpl.
  - constructor.
  - inversion Hnd as [|? ? Hx Hxs]; subst. apply NoDup_app.
    + apply NoDup_filter. apply Injective_map_NoDup; [|apply range_NoDup].
      intros a b H. now inversion H.
    + now apply IH.
    + intros [a b] Ha Hb. apply filter_In in Ha. destruct Ha as [Ha _].
      apply in_map_iff in Ha. destruct Ha as [y [Heq _]]. inversion Heq; subst.
      apply in_flat_map in Hb. destruct Hb as [x' [Hx' Hf]].
      apply filter_In in Hf. destruct Hf as [Hf _].
      apply in_map_iff in Hf. destruct Hf as [y' [Heq' _]].
      inversion Heq'; subst. contradiction.
Qed.

Lemma spawn_dirty_tiles_spec (m : DummyModel) (r : Random) :
  exists new,
    spawn_dirty_tiles m r
    = Ok (set_dirty_tiles m (dirty_tiles m ++ new), drawn r (length new)) /\
    length new
    = Z.to_nat (Z.min (dirty_count m - len (dirty_tiles m)) (len (free_cells m))) /\
    NoDup new /\ incl new (free_cells m).
Proof.
  unfold spawn_dirty_tiles.
  set (n := Z.to_nat (Z.min (dirty_count m - len (dirty_tiles m))
                            (len (free_cells m)))).
  destruct (spawn_loop_spec n (dirty_tiles m) (free_cells m) r)
    as [new [Hs [Hl [Hnd Hi]]]].
  - unfold n, len. lia.
  - apply free_cells_NoDup.
  - exists new. rewrite Hs. simpl. rewrite Hl. repeat split; auto.
Qed.

Lemma DummyModel_init_unfold
    (height width agent_count dirty_count max_steps : Z)
    (global_random model_random : Random) :
  DummyModel_init height width agent_count dirty_count max_steps
                  global_random model_random
  = if (width <? 0) || (height <? 0) then Raise ValueError
    else
      ags <- place_agents (mkGrid width height) (range agent_count) ;;
      spawn_dirty_tiles
        (mkModel (mkGrid width height) ags [] dirty_count max_steps
                 0 false 0 None model_random)
        global_random.
Proof.
  unfold DummyModel_init, MultiGrid_init.
  destruct ((width <? 0) || (height <? 0)); reflexivity.
Qed.

Lemma DummyModel_init_inv
    (height width agent_count dirty_count max_steps : Z)
    (global_random model_random : Random) (m : DummyModel) (g' : Random) :
  DummyModel_init height width agent_count dirty_count max_steps
                  global_random model_random = Ok (m, g') ->
  let b := blank_model height width agent_count dirty_count max_steps
                       model_random in
  m = set_dirty_tiles b (dirty_tiles m) /\
  g' = drawn global_random (length (dirty_tiles m)) /\
  length (dirty_tiles m)
  = Z.to_nat (Z.min dirty_count (len (free_cells b))) /\
  NoDup (dirty_tiles m) /\ incl (dirty_tiles m) (free_cells b) /\
  (agents m <> [] -> in_bounds (grid m) (0, N - 1) = true).
Proof.
  intros H b. rewrite DummyModel_init_unfold in H.
  destruct ((width <? 0) || (height <? 0)); [discriminate|].
  destruct (place_agents (mkGrid width height) (range agent_count))
    as [ags|e] eqn:Hp; simpl in H; [|discriminate].
  apply place_agents_inv in Hp. destruct Hp as [-> Hb].
  fold (blank_model height width agent_count dirty_count max_steps model_random) in H.
  fold b in H.
  destruct (spawn_dirty_tiles_spec b global_random) as [new [Hs [Hl [Hnd Hi]]]].
  rewrite Hs in H. inversion H; subst. simpl.
  repeat split; auto.
  - rewrite Hl. simpl. now rewrite len_nil, Z.sub_0_r.
  - intros Hne. apply Hb. intros Hr. apply Hne. unfold fresh_agents.
    now rewrite Hr.
Qed.

Lemma DummyModel_init_ok
    (height width agent_count dirty_count max_steps : Z)
    (global_random model_random : Random) :
  (0 <= width /\ 0 <= height /\ agent_count <= 0) \/
  (1 <= width /\ N <= height) ->
  exists m g',
    DummyModel_init height width agent_count dirty_count max_steps
                    global_random model_random = Ok (m, g').
Proof.
  intros Hc. rewrite DummyModel_init_unfold.
  replace ((width <? 0) || (height <? 0)) with false.
  2:{ symmetry. apply orb_false_iff. rewrite !Z.ltb_ge. unfold N in Hc. lia. }
  assert (Hp : place_agents (mkGrid width height) (range agent_count)
               = Ok (fresh_agents (range agent_count))).
  { destruct Hc as [[_ [_ Hc]]|[Hw Hh]].
    - unfold range. replace (Z.to_nat agent_count) with 0%nat by lia. reflexivity.
    - apply place_agents_in_bounds. apply in_bounds_iff. simpl. unfold N in *. lia. }
  rewrite Hp. simpl.
  destruct (spawn_dirty_tiles_spec
              (mkModel (mkGrid width height) (fresh_agents (range agent_count)) []
                       dirty_count max_steps 0 false 0 None model_random)
              global_random) as [new [Hs _]].
  rewrite Hs. eauto.
Qed.

(* ------------------------------------------------------------------ *)
(** * One call of [step], field by field *)

Lemma step_running (m : DummyModel) :
  done m = false ->
  exists ags' m' out, step m = Ok (m', out) /\ tick_result m ags' m' out.
Proof.
  intros Hd. destruct (step_spec m Hd) as [ags' [Hf Hs]].
  exists ags'. unfold finish, after_tick in Hs. simpl in Hs.
  match type of Hs with
  | context [if ?c then _ else _] => destruct c eqn:Hc
  end; rewrite Hs; eexists; eexists; (split; [reflexivity|]);
    constructor; simpl; auto; try (now rewrite Hc); try (now rewrite Hd).
Qed.

Lemma step_inv (m m' : DummyModel) (out : list Summary) :
  step m = Ok (m', out) ->
  (done m = true /\ m' = m /\ out = []) \/
  (done m = false /\ exists ags', tick_result m ags' m' out).
Proof.
  intros H. destruct (done m) eqn:Hd.
  - left. rewrite step_done in H by assumption. inversion H; auto.
  - right. split; [reflexivity|].
    destruct (step_running m Hd) as [ags' [m1 [out1 [Hs Ht]]]].
    rewrite Hs in H. inversion H; subst. now exists ags'.
Qed.

(* ------------------------------------------------------------------ *)
(** * Invariants of the reachable states *)

Lemma tick_agents_in_grid (g : MultiGrid) (ags ags' : list DummyAgent) :
  Forall2 (tick_agent g) ags ags' ->
  Forall (fun a => in_bounds g (pos a) = true) ags ->
  Forall (fun a => in_bounds g (pos a) = true) ags'.
Proof.
  induction 1 as [|a a' ags ags' Ht _ IH]; intros Hf; constructor.
  - apply Forall_inv in Hf.
    destruct (tick_agent_cases _ _ _ Ht) as [_ [[-> _]|[_ [Hb _]]]]; assumption.
  - apply IH. now apply Forall_inv_tail in Hf.
Qed.

Lemma step_agents_in_grid (m m' : DummyModel) (out : list Summary) :
  step m = Ok (m', out) -> agents_in_grid m -> agents_in_grid m'.
Proof.
  intros H Hi. destruct (step_inv _ _ _ H) as [[_ [-> _]]|[_ [ags' Ht]]]; auto.
  unfold agents_in_grid. rewrite (tr_grid _ _ _ _ Ht), (tr_agents _ _ _ _ Ht).
  eapply tick_agents_in_grid; [apply (tr_agents_rel _ _ _ _ Ht)|exact Hi].
Qed.

Lemma step_no_agent_on_dirt (m m' : DummyModel) (out : list Summary) :
  step m = Ok (m', out) -> no_agent_on_dirt m -> no_agent_on_dirt m'.
Proof.
  intros H Hi. destruct (step_inv _ _ _ H) as [[_ [-> _]]|[_ [ags' Ht]]]; auto.
  intros t Hin. rewrite (tr_dirty _ _ _ _ Ht) in Hin.
  apply filter_In in Hin. destruct Hin as [_ Hn].
  rewrite (tr_agents _ _ _ _ Ht). now apply negb_true_iff in Hn.
Qed.

Lemma filter_split_len (p : Coordinate -> bool) (l : list Coordinate) :
  len (filter p l) + len (filter (fun t => negb (p t)) l) = len l.
Proof.
  induction l as [|x l IH]; cbn [filter]; [reflexivity|].
  destruct (p x); cbn [negb]; rewrite !len_cons; lia.
Qed.

Lemma step_cleaned_balance (m m' : DummyModel) (out : list Summary) :
  step m = Ok (m', out) ->
  cleaned_count m' + len (dirty_tiles m') = cleaned_count m + len (dirty_tiles m) /\
  cleaned_count m <= cleaned_count m' /\
  (NoDup (dirty_tiles m) -> NoDup (dirty_tiles m')).
Proof.
  intros H. destruct (step_inv _ _ _ H) as [[_ [-> _]]|[_ [ags' Ht]]].
  - repeat split; auto; lia.
  - rewrite (tr_cleaned _ _ _ _ Ht), (tr_dirty _ _ _ _ Ht).
    pose proof (filter_split_len (occupied ags') (dirty_tiles m)).
    pose proof (len_nonneg (filter (occupied ags') (dirty_tiles m))).
    repeat split; try lia. apply NoDup_filter.
Qed.

Lemma step_config (m m' : DummyModel) (out : list Summary) :
  step m = Ok (m', out) ->
  grid m' = grid m /\ max_steps m' = max_steps m /\
  dirty_count m' = dirty_count m.
Proof.
  intros H. destruct (step_inv _ _ _ H) as [[_ [-> _]]|[_ [ags' Ht]]]; auto.
  destruct Ht; auto.
Qed.

Lemma fresh_agents_pos (ids : list Z) (a : DummyAgent) :
  In a (fresh_agents ids) -> pos a = (0, N - 1) /\ moves_made a = 0.
Proof.
  unfold fresh_agents. rewrite in_map_iff. intros [i [<- _]]. split; reflexivity.
Qed.

Lemma init_agents_in_grid
    (height width agent_count dirty_count max_steps : Z)
    (global_random model_random : Random) (m0 : DummyModel) (g' : Random) :
  DummyModel_init height width agent_count dirty_count max_steps
                  global_random model_random = Ok (m0, g') ->
  agents_in_grid m0.
Proof.
  intros H. apply DummyModel_init_inv in H.
  destruct H as [Hm [_ [_ [_ [_ Hb]]]]].
  unfold agents_in_grid. apply Forall_forall. intros a Ha.
  assert (Hne : agents m0 <> []) by (intros E; rewrite E in Ha; destruct Ha).
  specialize (Hb Hne). rewrite Hm in Ha. simpl in Ha.
  apply fresh_agents_pos in Ha. destruct Ha as [-> _]. exact Hb.
Qed.

Lemma init_no_agent_on_dirt
    (height width agent_count dirty_count max_steps : Z)
    (global_random model_random : Random) (m0 : DummyModel) (g' : Random) :
  DummyModel_init height width agent_count dirty_count max_steps
                  global_random model_random = Ok (m0, g') ->
  no_agent_on_dirt m0 /\ NoDup (dirty_tiles m0).
Proof.
  intros H. apply DummyModel_init_inv in H.
  destruct H as [Hm [_ [_ [Hnd [Hi _]]]]]. split; [|assumption].
  intros [x y] Ht. apply Hi in Ht. apply free_cells_In in Ht.
  destruct Ht as [_ [He _]]. unfold is_cell_empty in He.
  apply negb_true_iff in He. rewrite Hm. exact He.
Qed.

Lemma reachable_invariants (m0 m : DummyModel) :
  reachable_from m0 m ->
  agents_in_grid m0 -> no_agent_on_dirt m0 -> NoDup (dirty_tiles m0) ->
  agents_in_grid m /\ no_agent_on_dirt m /\ NoDup (dirty_tiles m) /\
  grid m = grid m0 /\ max_steps m = max_steps m0 /\
  cleaned_count m + len (dirty_tiles m)
  = cleaned_count m0 + len (dirty_tiles m0) /\
  cleaned_count m0 <= cleaned_count m.
Proof.
  intros Hr Hg Hd Hn. induction Hr as [|m m' out Hr IH Hs].
  - repeat split; auto; lia.
  - destruct IH as [Ig [Id [In_ [Igr [Ims [Ib Ic]]]]]].
    destruct (step_cleaned_balance _ _ _ Hs) as [Hb [Hc Hnd]].
    destruct (step_config _ _ _ Hs) as [Hgr [Hms _]].
    repeat split.
    + eapply step_agents_in_grid; eauto.
    + eapply step_no_agent_on_dirt; eauto.
    + auto.
    + congruence.
    + congruence.
    + lia.
    + lia.
Qed.

Lemma reachable_cleaned_mono (m m' : DummyModel) :
  reachable_from m m' -> cleaned_count m <= cleaned_count m'.
Proof.
  induction 1 as [|m1 m2 out _ IH Hs]; [lia|].
  destruct (step_cleaned_balance _ _ _ Hs) as [_ [Hc _]]. lia.
Qed.

Lemma run_done (n : nat) (m : DummyModel) :
  done m = true -> run n m = Ok (repeat m n, []).
Proof.
  intros Hd. induction n as [|n IH]; simpl; [reflexivity|].
  rewrite step_done by assumption. simpl. now rewrite IH.
Qed.

Lemma Forall_repeat_eq {A : Type} (x : A) (n : nat) : Forall (eq x) (repeat x n).
Proof. induction n; simpl; constructor; auto. Qed.

Lemma demo_model_init :
  DummyModel_init N M default_agent_count default_dirty_count
                  default_max_steps count_random count_random
  = Ok (demo_model, drawn count_random 12).
Proof. vm_compute. reflexivity. Qed.

Lemma demo_next_step : step demo_model = Ok (demo_next, []).
Proof. vm_compute. reflexivity. Qed.

Lemma demo_next_reachable : reachable_from demo_model demo_next.
Proof. eapply reach_step; [apply reach_init | apply demo_next_step]. Qed.

(* ------------------------------------------------------------------ *)
(** * The grid is never left *)



(* ------------------------------------------------------------------ *)
(** * Dirty tiles and agents never share a cell between ticks *)

(** C10: in every state reachable from a constructed model, the
    construction included, no remaining dirty tile is the position of an
    agent. *)
Theorem dirt_disjoint_from_agents
    (h w ac dc ms : Z) (gr mr : Random) (m0 m : DummyModel) (g' : Random) :
  DummyModel_init h w ac dc ms gr mr = Ok (m0, g') ->
  reachable_from m0 m ->
  forall t a, In t (dirty_tiles m) -> In a (agents m) -> pos a <> t.
Proof.
  intros Hi Hr t a Ht Ha He.
  pose proof (init_agents_in_grid _ _ _ _ _ _ _ _ _ Hi) as Hg.
  destruct (init_no_agent_on_dirt _ _ _ _ _ _ _ _ _ Hi) as [Hd Hn].
  destruct (reachable_invariants _ _ Hr Hg Hd Hn) as [_ [Id _]].
  specialize (Id t Ht).
  assert (Ho : occupied (agents m) t = true) by (apply occupied_iff; eauto).
  congruence.
Qed.

Lemma dirt_disjoint_from_agents_witness :
  DummyModel_init N M default_agent_count default_dirty_count
                  default_max_steps count_random count_random
  = Ok (demo_model, drawn count_random 12) /\
  reachable_from demo_model demo_next /\
  forall t a, In t (dirty_tiles demo_next) -> In a (agents demo_next) ->
              pos a <> t.
Proof.
  split; [exact demo_model_init|]. split; [exact demo_next_reachable|].
  exact (dirt_disjoint_from_agents _ _ _ _ _ _ _ _ _ _
           demo_model_init demo_next_reachable).
Defined.

(* ------------------------------------------------------------------ *)
(** * The cleaning counter *)

(** C4: in every state reachable from a constructed model [m0],
    [cleaned_count] plus the number of remaining dirty tiles is the number
    of tiles [m0] started with, [cleaned_count] lies between 0 and that
    number and never decreases afterwards; and a tick of a running model
    removes exactly the dirty tiles some agent stands on after the commit
    phase, each of them once in the count, however many agents share it. *)
Theorem cleaned_count_balance
    (h w ac dc ms : Z) (gr mr : Random) (m0 m : DummyModel) (g' : Random) :
  DummyModel_init h w ac dc ms gr mr = Ok (m0, g') ->
  reachable_from m0 m ->
  cleaned_count m + len (dirty_tiles m) = len (dirty_tiles m0) /\
  0 <= cleaned_count m <= len (dirty_tiles m0) /\
  (forall m', reachable_from m m' -> cleaned_count m <= cleaned_count m') /\
  exists m' out, step m = Ok (m', out) /\
    (done m = false ->
     let removed := filter (occupied (agents m')) (dirty_tiles m) in
     dirty_tiles m'
     = filter (fun t => negb (occupied (agents m') t)) (dirty_tiles m) /\
     cleaned_count m' = cleaned_count m + len removed /\
     forall t, In t (dirty_tiles m) ->
               (exists a, In a (agents m') /\ pos a = t) ->
               ~ In t (dirty_tiles m') /\
               count_occ coord_eq_dec removed t = 1%nat).
Proof.
  intros Hi Hr.
  pose proof (init_agents_in_grid _ _ _ _ _ _ _ _ _ Hi) as Hg.
  destruct (init_no_agent_on_dirt _ _ _ _ _ _ _ _ _ Hi) as [Hd Hn].
  destruct (reachable_invariants _ _ Hr Hg Hd Hn)
    as [_ [_ [Ind [_ [_ [Ib Ic]]]]]].
  apply DummyModel_init_inv in Hi. destruct Hi as [Hm _].
  assert (H0 : cleaned_count m0 = 0) by (rewrite Hm; reflexivity).
  pose proof (len_nonneg (dirty_tiles m)) as Hlen.
  split; [lia|]. split; [lia|].
  split; [intros m'; apply reachable_cleaned_mono|].
  destruct (step_total m) as [m' [out Hs]]. exists m', out.
  split; [assumption|]. intros Hrun removed.
  destruct (step_inv _ _ _ Hs) as [[Hdone _]|[_ [ags' Ht]]]; [congruence|].
  subst removed. rewrite (tr_agents _ _ _ _ Ht).
  split; [apply (tr_dirty _ _ _ _ Ht)|].
  split; [apply (tr_cleaned _ _ _ _ Ht)|].
  intros t Hin Hocc. apply occupied_iff in Hocc. split.
  - rewrite (tr_dirty _ _ _ _ Ht). intros Hf. apply filter_In in Hf.
    destruct Hf as [_ Hf]. rewrite Hocc in Hf. discriminate.
  - apply NoDup_count_occ'.
    + now apply NoDup_filter.
    + apply filter_In. split; assumption.
Qed.

Lemma cleaned_count_balance_witness :
  DummyModel_init N M default_agent_count default_dirty_count
                  default_max_steps count_random count_random
  = Ok (demo_model, drawn count_random 12) /\
  reachable_from demo_model demo_next /\
  cleaned_count demo_next + len (dirty_tiles demo_next)
  = len (dirty_tiles demo_model).
Proof.
  split; [exact demo_model_init|]. split; [exact demo_next_reachable|].
  exact (proj1 (cleaned_count_balance _ _ _ _ _ _ _ _ _ _
                  demo_model_init demo_next_reachable)).
Defined.

(** The default configuration (6 by 6, 3 agents, 12 dirty tiles, budget
    100): the balance holds in each of the 100 states of the run, which ends
    done on the budget. *)
Example default_run_balance :
  match run 100 demo_model with
  | Ok (ms, outs) =>
      forallb (fun m => cleaned_count m + len (dirty_tiles m) =? 12) ms = true /\
      done (last ms demo_model) = true /\
      outs = [MaxStepsReached 100 100 4 294]
  | Raise _ => False
  end.
Proof. vm_compute. repeat split; reflexivity. Qed.

(** Three agents stepping together onto the dirty cell [(1, 5)]: the cell
    leaves the registry and the counter goes up by one. *)
Example shared_tile_cleaned_once :
  match DummyModel_init N M 3 12 100 count_random (const_random 1) with
  | Ok (m0, _) =>
      match step m0 with
      | Ok (m1, _) =>
          (map pos (agents m1), mem (1, 5) (dirty_tiles m0),
           mem (1, 5) (dirty_tiles m1), cleaned_count m1, len (dirty_tiles m1))
          = ([(1, 5); (1, 5); (1, 5)], true, false, 1, 11)
      | Raise _ => False
      end
  | Raise _ => False
  end.
Proof. vm_compute. reflexivity. Qed.

(* ------------------------------------------------------------------ *)
(** * The step counter, and ticks after the end *)

(** C5: a call of [step] always returns; on a running model it raises
    [current_step] by exactly 1, and on a model that is done it returns the
    very same model (agents, dirty tiles, counters, flag, generator) and
    prints nothing. *)
Theorem step_counts_and_then_rests (m : DummyModel) :
  exists m' out, step m = Ok (m', out) /\
    if done m then m' = m /\ out = []
    else current_step m' = current_step m + 1.
Proof.
  destruct (done m) eqn:Hd.
  - exists m, []. rewrite step_done by assumption. auto.
  - destruct (step_running m Hd) as [ags' [m' [out [Hs Ht]]]].
    exists m', out. split; [assumption|]. apply (tr_current_step _ _ _ _ Ht).
Qed.

(* ------------------------------------------------------------------ *)
(** * Termination and the summary *)

(** C3: a tick of a running model ends in [done] exactly when, after the
    counter was advanced, the registry is empty or [current_step] has
    reached [max_steps]; that tick, and no other, prints the summary; the
    summary is the all-cleaned one (last cleaning step, tiles cleaned, sum
    of the agents' moves) when the registry is empty, also when the budget
    is reached on the same tick, and the budget one (current step, tiles
    cleaned, sum of the moves) otherwise.  Over any number of further calls
    the summary is printed once at most: the states before the first done
    state are running, the ones after it are that same state. *)
Theorem done_tick_prints_summary_once (n : nat) (m : DummyModel) :
  done m = false ->
  (exists m' out, step m = Ok (m', out) /\
     (done m' = true <->
      dirty_tiles m' = [] \/ max_steps m' <= current_step m') /\
     out = (if done m' then [print_summary m'] else []) /\
     print_summary m'
     = match dirty_tiles m' with
       | [] => AllCleaned (last_cleaned_step m') (cleaned_count m')
                          (sum (map moves_made (agents m')))
       | _ :: _ => MaxStepsReached (max_steps m') (current_step m')
                                   (cleaned_count m')
                                   (sum (map moves_made (agents m')))
       end) /\
  (exists ms outs, run n m = Ok (ms, outs) /\
     ((Forall running ms /\ outs = []) \/
      (exists pre mk post,
         ms = pre ++ mk :: post /\ Forall running pre /\ done mk = true /\
         Forall (eq mk) post /\ outs = [print_summary mk]))).
Proof.
  intros Hd. split.
  - destruct (step_running m Hd) as [ags' [m' [out [Hs Ht]]]].
    exists m', out. split; [assumption|]. split; [|split].
    + rewrite (tr_done _ _ _ _ Ht), orb_true_iff, Z.leb_le.
      destruct (dirty_tiles m'); simpl; intuition congruence.
    + apply (tr_out _ _ _ _ Ht).
    + unfold print_summary, total_moves. now destruct (dirty_tiles m').
  - revert m Hd. induction n as [|n IH]; intros m Hd.
    + exists [], []. split; [reflexivity|]. left. split; constructor.
    + destruct (step_running m Hd) as [ags' [m' [out [Hs Ht]]]].
      cbn [run]. rewrite Hs. cbn [bind].
      pose proof (tr_out _ _ _ _ Ht) as Hout.
      destruct (done m') eqn:Hd'.
      * rewrite run_done by assumption. cbn [bind].
        exists (m' :: repeat m' n), (out ++ []). split; [reflexivity|].
        right. exists [], m', (repeat m' n).
        repeat split; auto using Forall_repeat_eq.
        now rewrite app_nil_r.
      * destruct (IH m' Hd') as [ms [outs [Hrun Hcases]]].
        rewrite Hrun. cbn [bind]. subst out. simpl.
        exists (m' :: ms), outs. split; [reflexivity|].
        destruct Hcases as [[Hf Ho]|[pre [mk [post [-> [Hf [Hk [Hp Ho]]]]]]]].
        -- left. split; [constructor; assumption|assumption].
        -- right. exists (m' :: pre), mk, post.
           repeat split; auto.
Qed.

Lemma done_tick_prints_summary_once_witness :
  done demo_model = false /\
  exists ms outs, run 100 demo_model = Ok (ms, outs) /\
     ((Forall running ms /\ outs = []) \/
      (exists pre mk post,
         ms = pre ++ mk :: post /\ Forall running pre /\ done mk = true /\
         Forall (eq mk) post /\ outs = [print_summary mk])).
Proof.
  split; [reflexivity|].
  exact (proj2 (done_tick_prints_summary_once 100 demo_model eq_refl)).
Defined.

(* ------------------------------------------------------------------ *)
(** * The state right after construction *)

Lemma total_moves_fresh (ids : list Z) : total_moves (fresh_agents ids) = 0.
Proof.
  unfold total_moves. induction ids as [|i ids IH]; [reflexivity|].
  cbn [fresh_agents map] in *. rewrite sum_cons. cbn [DummyAgent_init moves_made].
  unfold fresh_agents in IH. lia.
Qed.

(** C1, as the code has it: construction always leaves the model running,
    with [cleaned_count = 0] and [current_step = 0], also when the budget is
    zero (or negative) or no tile is dirty; in those cases it is the first
    call of [step] that sets [done], with [current_step = 1], and prints the
    summary.  A summary taken right after construction is the budget one,
    at step 0 with nothing cleaned and no move, when a tile is dirty. *)
Theorem init_runs_first_tick_settles
    (h w ac dc ms : Z) (gr mr : Random) (m0 : DummyModel) (g' : Random) :
  DummyModel_init h w ac dc ms gr mr = Ok (m0, g') ->
  done m0 = false /\ cleaned_count m0 = 0 /\ current_step m0 = 0 /\
  max_steps m0 = ms /\
  (ms <= 0 \/ dirty_tiles m0 = [] ->
   exists m1 out, step m0 = Ok (m1, out) /\ done m1 = true /\
                  current_step m1 = 1 /\ out = [print_summary m1]) /\
  (dirty_tiles m0 <> [] -> print_summary m0 = MaxStepsReached ms 0 0 0).
Proof.
  intros Hi. apply DummyModel_init_inv in Hi. destruct Hi as [Hm _].
  assert (Hd : done m0 = false) by (rewrite Hm; reflexivity).
  assert (Hc : cleaned_count m0 = 0) by (rewrite Hm; reflexivity).
  assert (Hs : current_step m0 = 0) by (rewrite Hm; reflexivity).
  assert (Hx : max_steps m0 = ms) by (rewrite Hm; reflexivity).
  assert (Ha : agents m0 = fresh_agents (range ac)) by (rewrite Hm; reflexivity).
  repeat (split; [assumption|]). split.
  - intros Hcase.
    destruct (step_running m0 Hd) as [ags' [m1 [out [Hst Ht]]]].
    exists m1, out. split; [assumption|].
    pose proof (tr_current_step _ _ _ _ Ht) as Hcs.
    pose proof (tr_max_steps _ _ _ _ Ht) as Hms.
    assert (Hd1 : done m1 = true).
    { rewrite (tr_done _ _ _ _ Ht). apply orb_true_iff.
      destruct Hcase as [Hle|Hnil].
      - right. apply Z.leb_le. lia.
      - left. rewrite (tr_dirty _ _ _ _ Ht), Hnil. reflexivity. }
    split; [assumption|]. split; [lia|].
    rewrite (tr_out _ _ _ _ Ht), Hd1. reflexivity.
  - intros Hne. unfold print_summary.
    destruct (dirty_tiles m0); [congruence|]. simpl.
    now rewrite Hx, Hs, Hc, Ha, total_moves_fresh.
Qed.

Lemma init_runs_first_tick_settles_witness :
  DummyModel_init N M 3 12 0 count_random count_random
  = Ok (set_dirty_tiles
          (blank_model N M 3 12 0 count_random) (dirty_tiles demo_model),
        drawn count_random 12) /\
  done (set_dirty_tiles
          (blank_model N M 3 12 0 count_random) (dirty_tiles demo_model))
  = false.
Proof.
  assert (H : DummyModel_init N M 3 12 0 count_random count_random
              = Ok (set_dirty_tiles (blank_model N M 3 12 0 count_random)
                                    (dirty_tiles demo_model),
                    drawn count_random 12))
    by (vm_compute; reflexivity).
  split; [exact H|].
  exact (proj1 (init_runs_first_tick_settles _ _ _ _ _ _ _ _ _ H)).
Defined.

(** C1 as stated fails: with [max_steps = 0], and with no dirty tile, the
    constructed model is not done. *)
Lemma init_zero_budget_not_done :
  (exists m g', DummyModel_init N M 3 12 0 count_random count_random
                = Ok (m, g') /\ max_steps m = 0 /\ done m = false) /\
  (exists m g', DummyModel_init N M 3 0 100 count_random count_random
                = Ok (m, g') /\ dirty_tiles m = [] /\ done m = false).
Proof.
  split; eexists; eexists; (split; [vm_compute; reflexivity|]);
    split; reflexivity.
Qed.

(* ------------------------------------------------------------------ *)
(** * Construction checks nothing *)

(** C8, as the code has it: [__init__] validates none of its arguments.  On
    a grid that contains the start cell [(0, N-1)] (width at least 1, height
    at least [N]) construction succeeds for every agent count, dirty count
    and step budget, and stores them as given. *)
Theorem init_accepts_every_count
    (h w ac dc ms : Z) (gr mr : Random) :
  1 <= w -> N <= h ->
  exists m g', DummyModel_init h w ac dc ms gr mr = Ok (m, g') /\
    max_steps m = ms /\ dirty_count m = dc /\
    map unique_id (agents m) = range ac.
Proof.
  intros Hw Hh.
  destruct (DummyModel_init_ok h w ac dc ms gr mr) as [m [g' Hi]]; [auto|].
  exists m, g'. split; [assumption|].
  apply DummyModel_init_inv in Hi. destruct Hi as [Hm _].
  rewrite Hm. simpl. repeat split; auto.
  unfold fresh_agents. rewrite map_map. simpl. apply map_id.
Qed.

Lemma init_accepts_every_count_witness :
  1 <= M /\ N <= N /\
  exists m g', DummyModel_init N M 50 1000 (-7) count_random count_random
               = Ok (m, g') /\
    max_steps m = -7 /\ dirty_count m = 1000 /\
    map unique_id (agents m) = range 50.
Proof.
  split; [unfold M; lia|]. split; [lia|].
  apply (init_accepts_every_count N M 50 1000 (-7)); unfold M, N; lia.
Defined.

(** C8 as stated fails: a zero budget, a negative budget and a dirty count
    larger than the grid are all accepted. *)
Lemma init_accepts_bad_configuration :
  (exists m g', DummyModel_init N M 3 12 0 count_random count_random
                = Ok (m, g')) /\
  (exists m g', DummyModel_init N M 3 12 (-1) count_random count_random
                = Ok (m, g')) /\
  (exists m g', DummyModel_init N M 3 1000 100 count_random count_random
                = Ok (m, g') /\ len (dirty_tiles m) = 35).
Proof.
  split; [|split].
  - eexists; eexists. vm_compute. reflexivity.
  - eexists; eexists. vm_compute. reflexivity.
  - eexists; eexists. split; [vm_compute; reflexivity|reflexivity].
Qed.

(* ------------------------------------------------------------------ *)
(** * Spawning the dirty tiles *)

Lemma is_cell_empty_iff (ags : list DummyAgent) (p : Coordinate) :
  is_cell_empty ags p = true <-> forall a, In a ags -> pos a <> p.
Proof.
  unfold is_cell_empty. rewrite negb_true_iff. fold (occupied ags p). split.
  - intros Hn a Ha He.
    assert (occupied ags p = true) by (apply occupied_iff; eauto). congruence.
  - intros Hn. destruct (occupied ags p) eqn:E; [|reflexivity].
    apply occupied_iff in E. destruct E as [a [Ha He]]. now apply Hn in He.
Qed.

Lemma fresh_agents_start (ac : Z) :
  1 <= ac -> In (DummyAgent_init 0 (0, N - 1)) (fresh_agents (range ac)).
Proof.
  intros Hac. unfold fresh_agents. apply in_map_iff. exists 0.
  split; [reflexivity|]. apply range_In. lia.
Qed.

Lemma free_cells_filter (m : DummyModel) :
  free_cells m
  = filter (fun c => is_cell_empty (agents m) c && negb (mem c (dirty_tiles m)))
           (all_cells (grid m)).
Proof.
  unfold free_cells, all_cells.
  induction (range (width (grid m))) as [|x xs IH]; [reflexivity|].
  cbn [flat_map]. now rewrite filter_app, IH.
Qed.

Lemma all_cells_In (g : MultiGrid) (x y : Z) :
  In (x, y) (all_cells g) <-> 0 <= x < width g /\ 0 <= y < height g.
Proof.
  unfold all_cells. rewrite in_flat_map. split.
  - intros [x' [Hx Hm]]. apply in_map_iff in Hm. destruct Hm as [y' [E Hy]].
    inversion E; subst. apply range_In in Hx, Hy. tauto.
  - intros [Hx Hy]. exists x. split; [now apply range_In|].
    apply in_map_iff. exists y. split; [reflexivity|now apply range_In].
Qed.

Lemma all_cells_NoDup (g : MultiGrid) : NoDup (all_cells g).
Proof.
  unfold all_cells. generalize (range_NoDup (width g)).
  induction (range (width g)) as [|x xs IH]; intros Hnd; cbn [flat_map].
  - constructor.
  - inversion Hnd as [|? ? Hx Hxs]; subst. apply NoDup_app.
    + apply Injective_map_NoDup; [|apply range_NoDup].
      intros a b H. now inversion H.
    + now apply IH.
    + intros [a b] Ha Hb. apply in_map_iff in Ha.
      destruct Ha as [y [E _]]. inversion E; subst.
      apply in_flat_map in Hb. destruct Hb as [x' [Hx' Hm]].
      apply in_map_iff in Hm. destruct Hm as [y' [E' _]].
      inversion E'; subst. contradiction.
Qed.

Lemma all_cells_len (g : MultiGrid) :
  len (all_cells g) = Z.max 0 (width g) * Z.max 0 (height g).
Proof.
  unfold all_cells, len.
  assert (H : forall xs ys : list Z,
             length (flat_map (fun x => map (fun y => (x, y)) ys) xs)
             = (length xs * length ys)%nat).
  { intros xs ys. induction xs as [|x xs IH]; [reflexivity|].
    cbn [flat_map]. rewrite length_app, length_map, IH. simpl. lia. }
  rewrite H. unfold range. rewrite !length_map, !length_seq, Nat2Z.inj_mul.
  f_equal; lia.
Qed.

Lemma filter_member_len (s : Coordinate) (l : list Coordinate) :
  NoDup l -> In s l -> len (filter (coord_eqb s) l) = 1.
Proof.
  induction 1 as [|x l Hx Hnd IH]; intros Hin; [destruct Hin|].
  cbn [filter]. destruct (coord_eqb s x) eqn:E.
  - apply coord_eqb_eq in E. subst x. rewrite len_cons.
    assert (Hnil : filter (coord_eqb s) l = []).
    { clear - Hx. induction l as [|y l IH]; [reflexivity|]. cbn [filter].
      destruct (coord_eqb s y) eqn:E.
      - apply coord_eqb_eq in E. subst. exfalso. apply Hx. now left.
      - apply IH. intros H. apply Hx. now right. }
    rewrite Hnil. reflexivity.
  - apply IH. destruct Hin as [->|Hin]; [|assumption].
    now rewrite coord_eqb_refl in E.
Qed.

Lemma is_cell_empty_fresh (ids : list Z) (c : Coordinate) :
  is_cell_empty (fresh_agents ids) c
  = match ids with
    | [] => true
    | _ :: _ => negb (coord_eqb (0, N - 1) c)
    end.
Proof.
  unfold is_cell_empty. destruct ids as [|i ids]; [reflexivity|]. f_equal.
  induction ids as [|j ids IH]; cbn [fresh_agents map existsb] in *.
  - cbn [DummyAgent_init pos]. apply orb_false_r.
  - cbn [DummyAgent_init pos] in *. rewrite IH. apply orb_diag.
Qed.

Lemma blank_free_cells_len (h w ac dc ms : Z) (mr : Random) :
  (1 <= ac -> in_bounds (mkGrid w h) (0, N - 1) = true) ->
  len (free_cells (blank_model h w ac dc ms mr))
  = Z.max 0 w * Z.max 0 h - (if 1 <=? ac then 1 else 0).
Proof.
  intros Hb. rewrite free_cells_filter.
  cbn [blank_model agents dirty_tiles grid].
  pose proof (all_cells_len (mkGrid w h)) as Hlen. cbn [width height] in Hlen.
  destruct (1 <=? ac) eqn:Hac.
  - apply Z.leb_le in Hac. specialize (Hb Hac).
    assert (Hr : exists i ids, range ac = i :: ids).
    { unfold range. destruct (Z.to_nat ac) as [|k] eqn:Ek; [lia|].
      cbn [seq map]. eauto. }
    destruct Hr as [i [ids Hr]].
    rewrite (filter_ext _ (fun c => negb (coord_eqb (0, N - 1) c))).
    2:{ intros c. rewrite is_cell_empty_fresh, Hr. cbn [mem existsb negb].
        apply andb_true_r. }
    pose proof (filter_split_len (coord_eqb (0, N - 1)) (all_cells (mkGrid w h)))
      as Hsplit.
    rewrite (filter_member_len _ _ (all_cells_NoDup _)) in Hsplit.
    2:{ apply all_cells_In. now apply in_bounds_iff. }
    lia.
  - apply Z.leb_gt in Hac.
    assert (Hr : range ac = []).
    { unfold range. replace (Z.to_nat ac) with 0%nat by lia. reflexivity. }
    rewrite (filter_ext _ (fun _ => true)).
    2:{ intros c. now rewrite Hr. }
    assert (Hall : forall l : list Coordinate, filter (fun _ => true) l = l).
    { induction l as [|x l IH]; [reflexivity|]. cbn [filter]. now rewrite IH. }
    rewrite Hall. lia.
Qed.

(** C7: [spawn_dirty_tiles] never raises, on any model and with any
    generator.  The cells it draws from are exactly the cells of the grid
    ([0 <= x < width], [0 <= y < height]) on which no agent stands and which
    are not dirty yet, each listed once.  It appends
    [min(needed, number of those cells)] of them (none when that is
    negative), where [needed] is [dirty_count] minus the tiles already there
    (all of [dirty_count] at construction); the new cells are pairwise
    distinct, so drawn without replacement.  When those cells are fewer
    than needed, every one of them becomes dirty and the registry stays
    below the requested count.  At construction the count is
    [min(dirty_count, width * height - k)], [k] being 1 when there is an
    agent and 0 otherwise, and an exception of [__init__] never depends on
    [dirty_count]. *)
Theorem spawn_takes_min_of_free_cells (m : DummyModel) (r : Random) :
  exists new,
    spawn_dirty_tiles m r
    = Ok (set_dirty_tiles m (dirty_tiles m ++ new), drawn r (length new)) /\
    NoDup (free_cells m) /\
    (forall x y, In (x, y) (free_cells m) <->
       (0 <= x < width (grid m) /\ 0 <= y < height (grid m)) /\
       (forall a, In a (agents m) -> pos a <> (x, y)) /\
       ~ In (x, y) (dirty_tiles m)) /\
    length new
    = Z.to_nat (Z.min (dirty_count m - len (dirty_tiles m))
                      (len (free_cells m))) /\
    NoDup new /\
    (forall x y, In (x, y) new ->
       (0 <= x < width (grid m) /\ 0 <= y < height (grid m)) /\
       (forall a, In a (agents m) -> pos a <> (x, y)) /\
       ~ In (x, y) (dirty_tiles m)) /\
    (len (free_cells m) < dirty_count m - len (dirty_tiles m) ->
     len new = len (free_cells m) /\
     (forall c, In c (free_cells m) -> In c new) /\
     len (dirty_tiles m ++ new) < dirty_count m) /\
    (forall h w ac dc ms gr mr m0 g',
       DummyModel_init h w ac dc ms gr mr = Ok (m0, g') ->
       len (dirty_tiles m0)
       = Z.max 0 (Z.min dc (Z.max 0 w * Z.max 0 h
                            - (if 1 <=? ac then 1 else 0))) /\
       NoDup (dirty_tiles m0) /\
       forall x y, In (x, y) (dirty_tiles m0) ->
         (0 <= x < w /\ 0 <= y < h) /\
         forall a, In a (agents m0) -> pos a <> (x, y)) /\
    (forall h w ac dc dc' ms gr gr' mr e,
       DummyModel_init h w ac dc ms gr mr = Raise e ->
       DummyModel_init h w ac dc' ms gr' mr = Raise e).
Proof.
  destruct (spawn_dirty_tiles_spec m r) as [new [Hs [Hl [Hnd Hi]]]].
  assert (Hchar : forall x y, In (x, y) (free_cells m) <->
            (0 <= x < width (grid m) /\ 0 <= y < height (grid m)) /\
            (forall a, In a (agents m) -> pos a <> (x, y)) /\
            ~ In (x, y) (dirty_tiles m)).
  { intros x y. rewrite free_cells_In, is_cell_empty_iff. reflexivity. }
  exists new. split; [assumption|].
  split; [apply free_cells_NoDup|]. split; [exact Hchar|].
  split; [assumption|]. split; [assumption|]. split; [|split; [|split]].
  - intros x y Hin. apply Hchar. now apply Hi.
  - intros Hlt. pose proof (len_nonneg (free_cells m)) as Hf.
    assert (Hn : len new = len (free_cells m)) by (unfold len in *; lia).
    split; [assumption|]. split; [|rewrite len_app; lia].
    apply NoDup_length_incl; [assumption| |assumption].
    unfold len in Hn. lia.
  - intros h w ac dc ms gr mr m0 g' Hinit.
    pose proof (DummyModel_init_inv _ _ _ _ _ _ _ _ _ Hinit) as Hinv.
    cbv zeta in Hinv. destruct Hinv as [Hm [_ [Hlen [Hnd0 [Hincl Hb]]]]].
    assert (Hg : grid m0 = mkGrid w h) by (rewrite Hm; reflexivity).
    assert (Ha : agents m0 = fresh_agents (range ac)) by (rewrite Hm; reflexivity).
    split; [|split; [assumption|]].
    + rewrite blank_free_cells_len in Hlen.
      * unfold len. rewrite Hlen. lia.
      * intros Hac. rewrite <- Hg. apply Hb. rewrite Ha.
        intros E. pose proof (fresh_agents_start ac Hac) as Hin.
        rewrite E in Hin. destruct Hin.
    + intros x y Hin. apply Hincl in Hin. apply free_cells_In in Hin.
      cbn [blank_model grid agents width height] in Hin.
      destruct Hin as [Hxy [He _]]. split; [assumption|].
      rewrite Ha. now apply is_cell_empty_iff.
  - intros h w ac dc dc' ms gr gr' mr e. rewrite !DummyModel_init_unfold.
    destruct ((w <? 0) || (h <? 0)); [auto|].
    destruct (place_agents (mkGrid w h) (range ac)) as [ags|e']; cbn [bind];
      [|auto].
    intros H.
    destruct (spawn_dirty_tiles_spec
                (mkModel (mkGrid w h) ags [] dc ms 0 false 0 None mr) gr)
      as [new0 [Hs0 _]].
    rewrite Hs0 in H. discriminate.
Qed.

(** A request that the grid cannot hold: 6 by 6 with the agents on one
    cell leaves 35 free cells, all of which become dirty. *)
Example spawn_capped_by_free_cells :
  match DummyModel_init N M 3 1000 100 count_random count_random with
  | Ok (m, _) => len (dirty_tiles m) = 35 /\ dirty_count m = 1000
  | Raise _ => False
  end.
Proof. vm_compute. split; reflexivity. Qed.

(** The second scenario of the specification, a 2 by 2 grid with three
    agents, cannot be built: the agents are placed on [(0, N-1) = (0, 5)],
    which that grid does not have. *)
Example small_grid_with_agents_raises :
  DummyModel_init 2 2 3 10 100 count_random count_random = Raise IndexError.
Proof. vm_compute. reflexivity. Qed.

(* ------------------------------------------------------------------ *)
(** * Moves are counted when, and only when, the position changes *)

Lemma commit_rel_refl (a : DummyAgent) : commit_rel a a.
Proof. unfold commit_rel. repeat split; auto; intros; try lia; congruence. Qed.

Lemma tick_agent_commit (g : MultiGrid) (a a' : DummyAgent) :
  tick_agent g a a' -> commit_rel a a'.
Proof.
  intros Ht. destruct (tick_agent_cases _ _ _ Ht) as [Hid [[Hp Hm]|[Hp [_ [Hm _]]]]];
    unfold commit_rel; repeat split; auto; intros; try lia; congruence.
Qed.

Lemma commit_rel_moved (a a' : DummyAgent) :
  commit_rel a a' -> moves_made a' = moves_made a + moved a a'.
Proof.
  intros [_ [Hn He]]. unfold moved.
  destruct (coord_eqb (pos a') (pos a)) eqn:E.
  - apply coord_eqb_eq in E. apply He in E. lia.
  - apply coord_eqb_neq in E. apply Hn in E. lia.
Qed.

Lemma commit_sum (ags ags' : list DummyAgent) :
  Forall2 commit_rel ags ags' ->
  total_moves ags' = total_moves ags + position_changes ags ags'.
Proof.
  unfold total_moves. induction 1 as [|a a' ags ags' Hc _ IH].
  - reflexivity.
  - cbn [map position_changes]. rewrite !sum_cons, IH, (commit_rel_moved _ _ Hc). lia.
Qed.

Lemma step_commit_rel (m m' : DummyModel) (out : list Summary) :
  step m = Ok (m', out) -> Forall2 commit_rel (agents m) (agents m').
Proof.
  intros H. destruct (step_inv _ _ _ H) as [[_ [-> _]]|[_ [ags' Ht]]].
  - induction (agents m); constructor; auto using commit_rel_refl.
  - rewrite (tr_agents _ _ _ _ Ht).
    eapply Forall2_impl; [|apply (tr_agents_rel _ _ _ _ Ht)].
    intros a a'. apply tick_agent_commit.
Qed.

Lemma run_succ_inv (n : nat) (m : DummyModel)
    (ms : list DummyModel) (outs : list Summary) :
  run (S n) m = Ok (ms, outs) ->
  exists m' out ms' outs',
    step m = Ok (m', out) /\ run n m' = Ok (ms', outs') /\
    ms = m' :: ms' /\ outs = out ++ outs'.
Proof.
  cbn [run]. destruct (step m) as [[m' out]|e] eqn:Es; cbn [bind]; [|discriminate].
  destruct (run n m') as [[ms' outs']|e] eqn:Er; cbn [bind]; [|discriminate].
  intros H. inversion H. subst. exists m', out, ms', outs'.
  repeat split; auto.
Qed.

Lemma step_agents_frame (g : MultiGrid) (ags : list DummyAgent) :
  forall (r : Random) (ags1 : list DummyAgent) (r1 : Random),
    step_agents g ags r = Ok (ags1, r1) ->
    map pos ags1 = map pos ags /\ map moves_made ags1 = map moves_made ags.
Proof.
  induction ags as [|a ags IH]; intros r ags1 r1 H.
  - inversion H. split; reflexivity.
  - cbn [step_agents] in H. unfold agent_step in H.
    destruct (intent_spec g a r) as [mv [_ [_ Hi]]]. rewrite Hi in H.
    cbn [bind] in H.
    destruct (step_agents g ags (advance_cursor r)) as [[rest r2]|e] eqn:E;
      cbn [bind] in H; [|discriminate].
    inversion H; subst. destruct (IH _ _ _ E) as [Hp Hm].
    cbn [map set_next_pos pos moves_made]. now rewrite Hp, Hm.
Qed.

Lemma run_total (n : nat) (m : DummyModel) :
  exists ms outs, run n m = Ok (ms, outs) /\ length ms = n.
Proof.
  revert m. induction n as [|n IH]; intros m.
  - exists [], []. auto.
  - destruct (step_total m) as [m' [out Hs]].
    destruct (IH m') as [ms [outs [Hr Hl]]].
    exists (m' :: ms), (out ++ outs). cbn [run]. rewrite Hs. cbn [bind].
    rewrite Hr. cbn [bind]. simpl. auto.
Qed.

Lemma last_cons_default {A : Type} (x d : A) (l : list A) :
  last (x :: l) d = last l x.
Proof.
  revert x d. induction l as [|y l IH]; intros x d; [reflexivity|].
  change (last (x :: y :: l) d) with (last (y :: l) d).
  rewrite IH. symmetry. apply IH.
Qed.


Lemma run_moves (n : nat) :
  forall (m : DummyModel) (ms : list DummyModel) (outs : list Summary),
    run n m = Ok (ms, outs) ->
    Forall (fun p => Forall2 commit_rel (agents (fst p)) (agents (snd p)))
           (combine (m :: ms) ms) /\
    total_moves (agents (last ms m))
    = total_moves (agents m) + observed_changes m ms.
Proof.
  induction n as [|n IH]; intros m ms outs H.
  - inversion H. simpl. split; [constructor|lia].
  - apply run_succ_inv in H.
    destruct H as [m' [out [ms' [outs' [Hs [Hr [-> _]]]]]]].
    destruct (IH _ _ _ Hr) as [Hf Ht].
    pose proof (step_commit_rel _ _ _ Hs) as Hc. split.
    + cbn [combine]. constructor; [exact Hc|exact Hf].
    + rewrite last_cons_default, Ht. cbn [observed_changes].
      rewrite (commit_sum _ _ Hc). lia.
Qed.

(** C6: across a tick an agent's [moves_made] goes up by exactly 1 if its
    position changed and stays as it is if the position did not change (the
    out-of-grid fallback included); over a run from construction the sum of
    [moves_made] over the agents is the number of position changes seen
    between consecutive states; and within a tick the intent phase leaves
    every position and counter alone, the agents of the new state being
    those the commit phase returned. *)
Theorem moves_count_position_changes
    (n : nat) (h w ac dc ms : Z) (gr mr : Random)
    (m0 : DummyModel) (g' : Random) :
  DummyModel_init h w ac dc ms gr mr = Ok (m0, g') ->
  exists trace outs, run n m0 = Ok (trace, outs) /\
    Forall (fun p => Forall2 commit_rel (agents (fst p)) (agents (snd p)))
           (combine (m0 :: trace) trace) /\
    sum (map moves_made (agents (last trace m0))) = observed_changes m0 trace /\
    Forall (fun m =>
      done m = false ->
      exists ags1 r1 m' out,
        step_agents (grid m) (agents m) (random m) = Ok (ags1, r1) /\
        map pos ags1 = map pos (agents m) /\
        map moves_made ags1 = map moves_made (agents m) /\
        step m = Ok (m', out) /\
        advance_agents (grid m) ags1 = Ok (agents m'))
      (m0 :: trace).
Proof.
  intros Hi. destruct (run_total n m0) as [trace [outs [Hr _]]].
  exists trace, outs. split; [assumption|].
  destruct (run_moves _ _ _ _ Hr) as [Hf Ht].
  split; [assumption|]. split.
  - fold (total_moves (agents (last trace m0))). rewrite Ht.
    apply DummyModel_init_inv in Hi. destruct Hi as [Hm _].
    rewrite Hm at 1. cbn [agents set_dirty_tiles blank_model].
    rewrite total_moves_fresh. lia.
  - apply Forall_forall. intros m _ Hd.
    destruct (step_phases m Hd) as [ags1 [Hsa [Hadv [Hrel Hs]]]].
    destruct (finish (after_tick m (map (committed (grid m)) ags1)))
      as [m' out] eqn:E.
    exists ags1, (drawn (random m) (length (agents m))), m', out.
    split; [assumption|].
    pose proof (step_agents_frame _ _ _ _ _ Hsa) as Hfr.
    destruct Hfr as [Hp Hm]. repeat (split; [assumption|]).
    rewrite Hadv. f_equal. unfold finish, after_tick in E.
    simpl in E.
    match type of E with
    | context [if ?c then _ else _] => destruct c
    end; inversion E; reflexivity.
Qed.

Lemma moves_count_position_changes_witness :
  DummyModel_init N M default_agent_count default_dirty_count
                  default_max_steps count_random count_random
  = Ok (demo_model, drawn count_random 12) /\
  exists trace outs, run 100 demo_model = Ok (trace, outs) /\
    sum (map moves_made (agents (last trace demo_model)))
    = observed_changes demo_model trace.
Proof.
  split; [exact demo_model_init|].
  destruct (moves_count_position_changes 100 _ _ _ _ _ _ _ _ _ demo_model_init)
    as [trace [outs [Hr [_ [Hs _]]]]].
  exists trace, outs. split; assumption.
Defined.

(* ------------------------------------------------------------------ *)
(** * What a run depends on *)















(* ------------------------------------------------------------------ *)
(** * The history of a run *)

Lemma tick_agent_next_pos (g : MultiGrid) (a a' : DummyAgent) :
  tick_agent g a a' -> next_pos a' = Some (pos a').
Proof.
  intros [mv [_ ->]]. unfold committed, intended, set_next_pos.
  cbn [next_pos pos].
  destruct (in_bounds g (add_coord (pos a) mv)) eqn:Hb.
  - rewrite Hb. cbn [andb].
    destruct (coord_eqb (add_coord (pos a) mv) (pos a)) eqn:He;
      cbn [negb next_pos pos]; [|reflexivity].
    apply coord_eqb_eq in He. now rewrite He.
  - rewrite coord_eqb_refl, andb_false_r. reflexivity.
Qed.

Lemma filter_negb_nil (p : Coordinate -> bool) (l : list Coordinate) :
  filter (fun t => negb (p t)) l = [] -> l <> [] -> filter p l <> [].
Proof.
  intros Hn Hl Hp. pose proof (filter_split_len p l) as H.
  rewrite Hn, Hp in H. change (len (@nil Coordinate)) with 0 in H.
  destruct l; [congruence|].
  rewrite len_cons in H. pose proof (len_nonneg l). lia.
Qed.

Lemma is_nil_true {A : Type} (l : list A) : is_nil l = true <-> l = [].
Proof. destruct l; simpl; split; congruence. Qed.

Lemma init_history
    (h w ac dc ms : Z) (gr mr : Random) (m0 : DummyModel) (g' : Random) :
  DummyModel_init h w ac dc ms gr mr = Ok (m0, g') -> history_inv m0 m0.
Proof.
  intros Hi. apply DummyModel_init_inv in Hi. destruct Hi as [Hm _].
  assert (Hd : done m0 = false) by (rewrite Hm; reflexivity).
  assert (Hc : cleaned_count m0 = 0) by (rewrite Hm; reflexivity).
  assert (Hs : current_step m0 = 0) by (rewrite Hm; reflexivity).
  assert (Hl : last_cleaned_step m0 = None) by (rewrite Hm; reflexivity).
  assert (Ha : agents m0 = fresh_agents (range ac)) by (rewrite Hm; reflexivity).
  constructor.
  - lia.
  - intros _. reflexivity.
  - intros _. left. assumption.
  - intros E. congruence.
  - lia.
  - lia.
  - rewrite Hl, Hc. split; reflexivity.
  - intros s E. congruence.
  - intros Hn Hne. congruence.
  - rewrite Ha. apply Forall_forall. intros a Hin.
    apply fresh_agents_pos in Hin. destruct Hin as [_ ->]. lia.
  - reflexivity.
  - intros E. exfalso. lia.
  - intros a Hin. exact Hin.
Qed.

Lemma step_history (m0 m m' : DummyModel) (out : list Summary) :
  history_inv m0 m -> step m = Ok (m', out) -> history_inv m0 m'.
Proof.
  intros Hh Hs. destruct (step_inv _ _ _ Hs) as [[_ [-> _]]|[Hd [ags' Ht]]];
    [assumption|].
  destruct Hh. destruct Ht.
  assert (Hcs : 1 <= current_step m') by lia.
  pose proof (len_nonneg (filter (occupied ags') (dirty_tiles m))) as Hlen.
  specialize (hi_running0 Hd).
  constructor.
  - lia.
  - intros E. exfalso. lia.
  - intros Hd'. right. rewrite tr_done0 in Hd'.
    apply orb_false_iff in Hd'. destruct Hd' as [Hn Hl].
    apply Z.leb_gt in Hl. split; [assumption|].
    intros E. apply is_nil_true in E. congruence.
  - intros Hd'. split; [assumption|]. rewrite tr_done0 in Hd'.
    apply orb_true_iff in Hd'. destruct Hd' as [Hn|Hl].
    + left. now apply is_nil_true.
    + right. now apply Z.leb_le.
  - rewrite tr_max_steps0. lia.
  - lia.
  - rewrite tr_last0, tr_cleaned0.
    destruct (filter (occupied ags') (dirty_tiles m)) as [|t l] eqn:E.
    + rewrite len_nil, Z.add_0_r. exact hi_last_none0.
    + rewrite len_cons. pose proof (len_nonneg l).
      split; [discriminate|lia].
  - intros s. rewrite tr_last0.
    destruct (filter (occupied ags') (dirty_tiles m)) as [|t l].
    + intros E. apply hi_last_some0 in E. lia.
    + intros E. inversion E. lia.
  - intros Hnil Hne. rewrite tr_last0, tr_current_step0.
    rewrite tr_dirty0 in Hnil.
    assert (Hdm : dirty_tiles m <> []).
    { destruct hi_running0 as [Hz|[_ Hn]]; [|assumption].
      rewrite (hi_cs_zero0 Hz). assumption. }
    pose proof (filter_negb_nil _ _ Hnil Hdm) as Hf.
    destruct (filter (occupied ags') (dirty_tiles m)); [congruence|reflexivity].
  - rewrite tr_agents0, tr_current_step0.
    clear - tr_agents_rel0 hi_moves0.
    induction tr_agents_rel0 as [|a a' l l' Ha _ IH]; constructor.
    + apply Forall_inv in hi_moves0.
      destruct (tick_agent_cases _ _ _ Ha) as [_ [[_ Hm]|[_ [_ [Hm _]]]]]; lia.
    + apply IH. now apply Forall_inv_tail in hi_moves0.
  - rewrite tr_agents0, <- hi_ids0. clear - tr_agents_rel0.
    induction tr_agents_rel0 as [|a a' l l' Ha _ IH]; [reflexivity|].
    cbn [map]. rewrite IH.
    destruct (tick_agent_cases _ _ _ Ha) as [-> _]. reflexivity.
  - intros _. rewrite tr_agents0. clear - tr_agents_rel0.
    induction tr_agents_rel0 as [|a a' l l' Ha _ IH]; constructor; auto.
    eapply tick_agent_next_pos; eauto.
  - rewrite tr_dirty0. intros t Hin. apply filter_In in Hin.
    apply hi_dirty_incl0. tauto.
Qed.

Lemma reachable_history
    (h w ac dc ms : Z) (gr mr : Random) (m0 m : DummyModel) (g' : Random) :
  DummyModel_init h w ac dc ms gr mr = Ok (m0, g') ->
  reachable_from m0 m -> history_inv m0 m.
Proof.
  intros Hi Hr. induction Hr as [|m m' out _ IH Hs].
  - eapply init_history; eauto.
  - eapply step_history; eauto.
Qed.

Lemma init_fields
    (h w ac dc ms : Z) (gr mr : Random) (m0 : DummyModel) (g' : Random) :
  DummyModel_init h w ac dc ms gr mr = Ok (m0, g') ->
  grid m0 = mkGrid w h /\ max_steps m0 = ms /\ dirty_count m0 = dc /\
  agents m0 = fresh_agents (range ac) /\ done m0 = false /\
  current_step m0 = 0 /\ cleaned_count m0 = 0 /\ random m0 = mr.
Proof.
  intros Hi. apply DummyModel_init_inv in Hi. destruct Hi as [Hm _].
  rewrite Hm. repeat split; reflexivity.
Qed.

Lemma reachable_config (m0 m : DummyModel) :
  reachable_from m0 m ->
  grid m = grid m0 /\ max_steps m = max_steps m0 /\ dirty_count m = dirty_count m0.
Proof.
  induction 1 as [|m m' out _ IH Hs]; [auto|].
  destruct (step_config _ _ _ Hs) as [Hg [Hm Hd]]. destruct IH as [? [? ?]].
  repeat split; congruence.
Qed.

Lemma one_tile_init :
  DummyModel_init N M 3 1 100 (const_random 10) (const_random 1)
  = Ok (one_tile_model, drawn (const_random 10) 1).
Proof. vm_compute. reflexivity. Qed.

Lemma one_tile_step :
  step one_tile_model = Ok (one_tile_next, [AllCleaned (Some 1) 1 3]).
Proof. vm_compute. reflexivity. Qed.

Lemma one_tick_init :
  DummyModel_init N M 3 12 1 count_random count_random
  = Ok (one_tick_model, drawn count_random 12).
Proof. vm_compute. reflexivity. Qed.

Lemma one_tick_step :
  step one_tick_model = Ok (one_tick_next, [MaxStepsReached 1 1 1 1]).
Proof. vm_compute. reflexivity. Qed.

Lemma last_repeat {A : Type} (x : A) (n : nat) : last (repeat x n) x = x.
Proof.
  induction n as [|n IH]; [reflexivity|].
  cbn [repeat]. now rewrite last_cons_default.
Qed.

Lemma run_final_reachable (n : nat) :
  forall (m : DummyModel) (trace : list DummyModel) (outs : list Summary),
    run n m = Ok (trace, outs) -> reachable_from m (last trace m).
Proof.
  induction n as [|n IH]; intros m trace outs H.
  - inversion H. constructor.
  - apply run_succ_inv in H.
    destruct H as [m' [out [ms' [outs' [Hs [Hr [-> _]]]]]]].
    rewrite last_cons_default. specialize (IH _ _ _ Hr).
    assert (H1 : reachable_from m m') by (eapply reach_step; [constructor|eauto]).
    clear - H1 IH. induction IH; [assumption|]. eapply reach_step; eauto.
Qed.

(** After [n] calls the model is done, or every call found it running and
    advanced the counter. *)
Lemma run_final_count (n : nat) :
  forall (m : DummyModel) (trace : list DummyModel) (outs : list Summary),
    run n m = Ok (trace, outs) ->
    done (last trace m) = true \/
    current_step (last trace m) = current_step m + Z.of_nat n.
Proof.
  induction n as [|n IH]; intros m trace outs H.
  - inversion H. right. simpl. lia.
  - destruct (done m) eqn:Hd.
    + rewrite run_done in H by assumption. inversion H; subst. left.
      now rewrite ?last_cons_default, last_repeat.
    + apply run_succ_inv in H.
      destruct H as [m' [out [ms' [outs' [Hs [Hr [-> _]]]]]]].
      rewrite last_cons_default.
      destruct (step_inv _ _ _ Hs) as [[Hd' _]|[_ [ags' Ht]]]; [congruence|].
      destruct (IH _ _ _ Hr) as [Hf|Hf]; [left; assumption|right].
      rewrite Hf, (tr_current_step _ _ _ _ Ht). lia.
Qed.

(** What [n] calls on a running model print. *)
Lemma run_outputs (n : nat) :
  forall (m : DummyModel) (trace : list DummyModel) (outs : list Summary),
    done m = false -> run n m = Ok (trace, outs) ->
    outs = if done (last trace m) then [print_summary (last trace m)] else [].
Proof.
  induction n as [|n IH]; intros m trace outs Hd H.
  - inversion H. simpl. now rewrite Hd.
  - apply run_succ_inv in H.
    destruct H as [m' [out [ms' [outs' [Hs [Hr [-> ->]]]]]]].
    rewrite last_cons_default.
    destruct (step_inv _ _ _ Hs) as [[Hd' _]|[_ [ags' Ht]]]; [congruence|].
    rewrite (tr_out _ _ _ _ Ht). destruct (done m') eqn:Hd'.
    + rewrite run_done in Hr by assumption. inversion Hr; subst.
      now rewrite last_repeat, Hd'.
    + simpl. eapply IH; eauto.
Qed.

(* ------------------------------------------------------------------ *)
(** * The step budget *)

(** A run from construction that is long enough for the budget ends done. *)
Lemma run_long_enough_done
    (n : nat) (h w ac dc ms : Z) (gr mr : Random)
    (m0 : DummyModel) (g' : Random)
    (trace : list DummyModel) (outs : list Summary) :
  DummyModel_init h w ac dc ms gr mr = Ok (m0, g') ->
  Z.max 1 ms <= Z.of_nat n ->
  run n m0 = Ok (trace, outs) ->
  done (last trace m0) = true.
Proof.
  intros Hi Hn Hr.
  pose proof (run_final_reachable _ _ _ _ Hr) as Hreach.
  pose proof (reachable_history _ _ _ _ _ _ _ _ _ _ Hi Hreach) as Hh.
  destruct (reachable_config _ _ Hreach) as [_ [Hms _]].
  destruct (init_fields _ _ _ _ _ _ _ _ _ Hi)
    as [_ [Hm0 [_ [_ [_ [Hc0 _]]]]]].
  destruct (done (last trace m0)) eqn:Hd; [reflexivity|exfalso].
  destruct (run_final_count _ _ _ _ Hr) as [Hf|Hf]; [congruence|].
  destruct (hi_running _ _ Hh Hd) as [Hz|[Hlt _]]; lia.
Qed.

(** X1: a run from construction of at least [max(1, max_steps)] ticks ends
    done, with [current_step] at most [max(1, max_steps)], and has printed
    exactly one summary, that of its final state. *)
Theorem run_ends_within_budget
    (n : nat) (h w ac dc ms : Z) (gr mr : Random)
    (m0 : DummyModel) (g' : Random) :
  DummyModel_init h w ac dc ms gr mr = Ok (m0, g') ->
  Z.max 1 ms <= Z.of_nat n ->
  exists trace outs, run n m0 = Ok (trace, outs) /\
    done (last trace m0) = true /\
    1 <= current_step (last trace m0) <= Z.max 1 ms /\
    outs = [print_summary (last trace m0)].
Proof.
  intros Hi Hn. destruct (run_total n m0) as [trace [outs [Hr _]]].
  exists trace, outs. split; [assumption|].
  pose proof (run_long_enough_done _ _ _ _ _ _ _ _ _ _ _ _ Hi Hn Hr) as Hdone.
  pose proof (run_final_reachable _ _ _ _ Hr) as Hreach.
  pose proof (reachable_history _ _ _ _ _ _ _ _ _ _ Hi Hreach) as Hh.
  destruct (reachable_config _ _ Hreach) as [_ [Hms _]].
  destruct (init_fields _ _ _ _ _ _ _ _ _ Hi)
    as [_ [Hm0 [_ [_ [Hd0 _]]]]].
  split; [assumption|]. split.
  - pose proof (hi_cs_bound _ _ Hh). destruct (hi_done _ _ Hh Hdone). lia.
  - rewrite (run_outputs _ _ _ _ Hd0 Hr), Hdone. reflexivity.
Qed.

Lemma run_ends_within_budget_witness :
  DummyModel_init N M default_agent_count default_dirty_count
                  default_max_steps count_random count_random
  = Ok (demo_model, drawn count_random 12) /\
  Z.max 1 default_max_steps <= Z.of_nat 100 /\
  exists trace outs, run 100 demo_model = Ok (trace, outs) /\
    done (last trace demo_model) = true /\
    1 <= current_step (last trace demo_model) <= Z.max 1 default_max_steps /\
    outs = [print_summary (last trace demo_model)].
Proof.
  split; [exact demo_model_init|].
  split; [unfold default_max_steps; lia|].
  apply (run_ends_within_budget 100 _ _ _ _ _ _ _ _ _ demo_model_init).
  unfold default_max_steps. lia.
Defined.

(** X2: in every state reachable from construction [current_step] lies
    between 0 and [max(1, max_steps)], and [done] is set exactly when at
    least one tick was made and the registry is empty or the budget is
    reached. *)
Theorem done_flag_meaning
    (h w ac dc ms : Z) (gr mr : Random) (m0 m : DummyModel) (g' : Random) :
  DummyModel_init h w ac dc ms gr mr = Ok (m0, g') ->
  reachable_from m0 m ->
  0 <= current_step m <= Z.max 1 ms /\
  (done m = true <->
   1 <= current_step m /\ (dirty_tiles m = [] \/ ms <= current_step m)).
Proof.
  intros Hi Hr.
  pose proof (reachable_history _ _ _ _ _ _ _ _ _ _ Hi Hr) as Hh.
  destruct (reachable_config _ _ Hr) as [_ [Hms _]].
  destruct (init_fields _ _ _ _ _ _ _ _ _ Hi) as [_ [Hm0 _]].
  assert (E : max_steps m = ms) by congruence.
  pose proof (hi_cs_nonneg _ _ Hh). pose proof (hi_cs_bound _ _ Hh).
  split; [lia|]. split.
  - intros Hd. destruct (hi_done _ _ Hh Hd) as [H1 H2].
    split; [assumption|]. destruct H2; [left; assumption|right; lia].
  - intros [H1 H2]. destruct (done m) eqn:Hd; [reflexivity|exfalso].
    destruct (hi_running _ _ Hh Hd) as [Hz|[Hlt Hne]]; [lia|].
    destruct H2; [congruence|lia].
Qed.

Lemma done_flag_meaning_witness :
  DummyModel_init N M default_agent_count default_dirty_count
                  default_max_steps count_random count_random
  = Ok (demo_model, drawn count_random 12) /\
  reachable_from demo_model demo_next /\
  0 <= current_step demo_next <= Z.max 1 default_max_steps.
Proof.
  split; [exact demo_model_init|]. split; [exact demo_next_reachable|].
  exact (proj1 (done_flag_meaning _ _ _ _ _ _ _ _ _ _
                  demo_model_init demo_next_reachable)).
Defined.

(* ------------------------------------------------------------------ *)
(** * What the summary reports *)

Lemma reachable_balance
    (h w ac dc ms : Z) (gr mr : Random) (m0 m : DummyModel) (g' : Random) :
  DummyModel_init h w ac dc ms gr mr = Ok (m0, g') ->
  reachable_from m0 m ->
  cleaned_count m + len (dirty_tiles m) = len (dirty_tiles m0) /\
  NoDup (dirty_tiles m).
Proof.
  intros Hi Hr.
  pose proof (init_agents_in_grid _ _ _ _ _ _ _ _ _ Hi) as Hg.
  destruct (init_no_agent_on_dirt _ _ _ _ _ _ _ _ _ Hi) as [Hd Hn].
  destruct (reachable_invariants _ _ Hr Hg Hd Hn)
    as [_ [_ [Hnd [_ [_ [Hb _]]]]]].
  destruct (init_fields _ _ _ _ _ _ _ _ _ Hi)
    as [_ [_ [_ [_ [_ [_ [Hc _]]]]]]].
  split; [lia|assumption].
Qed.

Lemma printed_summary (m m' : DummyModel) (out : list Summary) (s : Summary) :
  step m = Ok (m', out) -> In s out ->
  done m = false /\ done m' = true /\ s = print_summary m'.
Proof.
  intros Hs Hin. destruct (step_inv _ _ _ Hs) as [[_ [_ ->]]|[Hd [ags' Ht]]];
    [destruct Hin|].
  rewrite (tr_out _ _ _ _ Ht) in Hin. destruct (done m'); [|destruct Hin].
  destruct Hin as [<-|[]]. auto.
Qed.

(** X3: whenever a tick of a run from construction prints the all-cleaned
    summary, the registry is empty, the reported number of cleaned tiles is
    the number of tiles the run started with, and the reported step is the
    current step, i.e. the tick that removed the last tile; when the run
    started with no dirty tile at all the reported step is [None]. *)
Theorem all_cleaned_summary_reports
    (h w ac dc ms : Z) (gr mr : Random) (m0 m m' : DummyModel) (g' : Random)
    (out : list Summary) (at_step : option Z) (c t : Z) :
  DummyModel_init h w ac dc ms gr mr = Ok (m0, g') ->
  reachable_from m0 m ->
  step m = Ok (m', out) ->
  In (AllCleaned at_step c t) out ->
  done m' = true /\ dirty_tiles m' = [] /\
  c = len (dirty_tiles m0) /\
  t = sum (map moves_made (agents m')) /\
  at_step = if is_nil (dirty_tiles m0) then None
            else Some (current_step m').
Proof.
  intros Hi Hr Hs Hin.
  destruct (printed_summary _ _ _ _ Hs Hin) as [_ [Hd' Hp]].
  assert (Hr' : reachable_from m0 m') by (eapply reach_step; eauto).
  pose proof (reachable_history _ _ _ _ _ _ _ _ _ _ Hi Hr') as Hh.
  destruct (reachable_balance _ _ _ _ _ _ _ _ _ _ Hi Hr') as [Hb _].
  unfold print_summary in Hp.
  destruct (dirty_tiles m') as [|x l] eqn:Ed; simpl in Hp; [|discriminate].
  inversion Hp; subst at_step c t. rewrite len_nil in Hb.
  split; [assumption|]. split; [reflexivity|]. split; [lia|].
  split; [reflexivity|].
  destruct (dirty_tiles m0) as [|y l0] eqn:E0; simpl.
  - apply (hi_last_none _ _ Hh).
    change (len (@nil Coordinate)) with 0 in Hb. lia.
  - apply (hi_last_all _ _ Hh); [assumption|]. rewrite E0. discriminate.
Qed.

Lemma all_cleaned_summary_reports_witness :
  DummyModel_init N M 3 1 100 (const_random 10) (const_random 1)
  = Ok (one_tile_model, drawn (const_random 10) 1) /\
  reachable_from one_tile_model one_tile_model /\
  step one_tile_model = Ok (one_tile_next, [AllCleaned (Some 1) 1 3]) /\
  In (AllCleaned (Some 1) 1 3) [AllCleaned (Some 1) 1 3] /\
  Some 1 = (if is_nil (dirty_tiles one_tile_model) then None
            else Some (current_step one_tile_next)).
Proof.
  split; [exact one_tile_init|]. split; [constructor|].
  split; [exact one_tile_step|]. split; [left; reflexivity|].
  exact (proj2 (proj2 (proj2 (proj2
    (all_cleaned_summary_reports _ _ _ _ _ _ _ _ _ _ _ _ _ _ _
       one_tile_init (reach_init _) one_tile_step
       (or_introl eq_refl)))))).
Defined.

(** X4: whenever a tick of a run from construction prints the budget
    summary, some tile is still dirty, the reported budget is [max_steps],
    the reported step is the current step and equals [max(1, max_steps)],
    and the reported number of cleaned tiles is the initial number minus the
    remaining ones, hence below the initial number. *)
Theorem budget_summary_reports
    (h w ac dc ms : Z) (gr mr : Random) (m0 m m' : DummyModel) (g' : Random)
    (out : list Summary) (b at_step c t : Z) :
  DummyModel_init h w ac dc ms gr mr = Ok (m0, g') ->
  reachable_from m0 m ->
  step m = Ok (m', out) ->
  In (MaxStepsReached b at_step c t) out ->
  done m' = true /\ dirty_tiles m' <> [] /\
  b = ms /\ at_step = current_step m' /\ at_step = Z.max 1 ms /\
  c = len (dirty_tiles m0) - len (dirty_tiles m') /\
  c < len (dirty_tiles m0) /\
  t = sum (map moves_made (agents m')).
Proof.
  intros Hi Hr Hs Hin.
  destruct (printed_summary _ _ _ _ Hs Hin) as [_ [Hd' Hp]].
  assert (Hr' : reachable_from m0 m') by (eapply reach_step; eauto).
  pose proof (reachable_history _ _ _ _ _ _ _ _ _ _ Hi Hr') as Hh.
  destruct (reachable_balance _ _ _ _ _ _ _ _ _ _ Hi Hr') as [Hb _].
  destruct (reachable_config _ _ Hr') as [_ [Hms _]].
  destruct (init_fields _ _ _ _ _ _ _ _ _ Hi) as [_ [Hm0 _]].
  unfold print_summary in Hp.
  destruct (dirty_tiles m') as [|x l] eqn:Ed; simpl in Hp; [discriminate|].
  inversion Hp; subst b at_step c t.
  pose proof (hi_cs_bound _ _ Hh) as Hbound.
  destruct (hi_done _ _ Hh Hd') as [H1 [H2|H2]]; [congruence|].
  rewrite len_cons in *. pose proof (len_nonneg l).
  repeat split; try congruence; try lia.
Qed.

Lemma budget_summary_reports_witness :
  DummyModel_init N M 3 12 1 count_random count_random
  = Ok (one_tick_model, drawn count_random 12) /\
  reachable_from one_tick_model one_tick_model /\
  step one_tick_model = Ok (one_tick_next, [MaxStepsReached 1 1 1 1]) /\
  In (MaxStepsReached 1 1 1 1) [MaxStepsReached 1 1 1 1] /\
  done one_tick_next = true.
Proof.
  split; [exact one_tick_init|]. split; [constructor|].
  split; [exact one_tick_step|]. split; [left; reflexivity|].
  exact (proj1
    (budget_summary_reports _ _ _ _ _ _ _ _ _ _ _ _ _ _ _ _
       one_tick_init (reach_init _) one_tick_step (or_introl eq_refl))).
Defined.

(* ------------------------------------------------------------------ *)
(** * The agents over a run *)

Lemma fresh_agents_ids (ids : list Z) : map unique_id (fresh_agents ids) = ids.
Proof.
  unfold fresh_agents. rewrite map_map. simpl. apply map_id.
Qed.

(** X5: the agents of every state reachable from construction are the
    agents created by [__init__], in the same order: their identifiers are
    [0, 1, ..., agent_count - 1] and there are [max(0, agent_count)] of
    them. *)
Theorem agents_keep_identity
    (h w ac dc ms : Z) (gr mr : Random) (m0 m : DummyModel) (g' : Random) :
  DummyModel_init h w ac dc ms gr mr = Ok (m0, g') ->
  reachable_from m0 m ->
  map unique_id (agents m) = range ac /\ len (agents m) = Z.max 0 ac.
Proof.
  intros Hi Hr.
  pose proof (reachable_history _ _ _ _ _ _ _ _ _ _ Hi Hr) as Hh.
  destruct (init_fields _ _ _ _ _ _ _ _ _ Hi) as [_ [_ [_ [Ha _]]]].
  assert (E : map unique_id (agents m) = range ac).
  { rewrite (hi_ids _ _ Hh), Ha. apply fresh_agents_ids. }
  split; [assumption|].
  unfold len. rewrite <- (length_map unique_id), E.
  unfold range. rewrite length_map, length_seq. lia.
Qed.

Lemma agents_keep_identity_witness :
  DummyModel_init N M default_agent_count default_dirty_count
                  default_max_steps count_random count_random
  = Ok (demo_model, drawn count_random 12) /\
  reachable_from demo_model demo_next /\
  map unique_id (agents demo_next) = range default_agent_count /\
  len (agents demo_next) = Z.max 0 default_agent_count.
Proof.
  split; [exact demo_model_init|]. split; [exact demo_next_reachable|].
  exact (agents_keep_identity _ _ _ _ _ _ _ _ _ _
           demo_model_init demo_next_reachable).
Defined.

Lemma sum_bounded (k : Z) (l : list Z) :
  Forall (fun x => 0 <= x <= k) l -> 0 <= sum l <= len l * k.
Proof.
  induction 1 as [|x l Hx _ IH].
  - change (sum []) with 0. change (len (@nil Z)) with 0. lia.
  - rewrite sum_cons, len_cons. nia.
Qed.

(** X6: in every state reachable from construction each agent has made
    between 0 and [current_step] moves, so the total of the moves reported
    by the summary is at most the number of agents times [current_step]. *)
Theorem moves_bounded_by_ticks
    (h w ac dc ms : Z) (gr mr : Random) (m0 m : DummyModel) (g' : Random) :
  DummyModel_init h w ac dc ms gr mr = Ok (m0, g') ->
  reachable_from m0 m ->
  (forall a, In a (agents m) -> 0 <= moves_made a <= current_step m) /\
  0 <= total_moves (agents m) <= len (agents m) * current_step m.
Proof.
  intros Hi Hr.
  pose proof (reachable_history _ _ _ _ _ _ _ _ _ _ Hi Hr) as Hh.
  pose proof (hi_moves _ _ Hh) as Hm. split.
  - now apply Forall_forall.
  - unfold total_moves.
    replace (len (agents m)) with (len (map moves_made (agents m)))
      by (unfold len; now rewrite length_map).
    apply sum_bounded. now apply Forall_map.
Qed.

Lemma moves_bounded_by_ticks_witness :
  DummyModel_init N M default_agent_count default_dirty_count
                  default_max_steps count_random count_random
  = Ok (demo_model, drawn count_random 12) /\
  reachable_from demo_model demo_next /\
  0 <= total_moves (agents demo_next)
    <= len (agents demo_next) * current_step demo_next.
Proof.
  split; [exact demo_model_init|]. split; [exact demo_next_reachable|].
  exact (proj2 (moves_bounded_by_ticks _ _ _ _ _ _ _ _ _ _
                  demo_model_init demo_next_reachable)).
Defined.

(** X7: in every state reachable from construction an agent's pending
    position is [None] before the first tick and its own position after
    any tick, so a further call of [advance], without a new [intent], returns
    the agent as it is. *)
Theorem pending_move_is_consumed
    (h w ac dc ms : Z) (gr mr : Random) (m0 m : DummyModel) (g' : Random) :
  DummyModel_init h w ac dc ms gr mr = Ok (m0, g') ->
  reachable_from m0 m ->
  forall a, In a (agents m) ->
    (current_step m = 0 -> next_pos a = None) /\
    (1 <= current_step m -> next_pos a = Some (pos a)) /\
    advance (grid m) a = Ok a.
Proof.
  intros Hi Hr a Ha.
  pose proof (reachable_history _ _ _ _ _ _ _ _ _ _ Hi Hr) as Hh.
  destruct (init_fields _ _ _ _ _ _ _ _ _ Hi) as [_ [_ [_ [Ha0 _]]]].
  assert (H0 : current_step m = 0 -> next_pos a = None).
  { intros Hz. rewrite (hi_cs_zero _ _ Hh Hz), Ha0 in Ha.
    unfold fresh_agents in Ha. apply in_map_iff in Ha.
    destruct Ha as [i [<- _]]. reflexivity. }
  assert (H1 : 1 <= current_step m -> next_pos a = Some (pos a)).
  { intros Hp. pose proof (hi_next _ _ Hh Hp) as Hf.
    rewrite Forall_forall in Hf. now apply Hf. }
  split; [assumption|]. split; [assumption|].
  rewrite advance_spec. unfold committed.
  pose proof (hi_cs_nonneg _ _ Hh) as Hn.
  destruct (Z.eq_dec (current_step m) 0) as [Hz|Hz].
  - now rewrite (H0 Hz).
  - rewrite H1 by lia. now rewrite coord_eqb_refl, andb_false_r.
Qed.

Lemma pending_move_is_consumed_witness :
  DummyModel_init N M default_agent_count default_dirty_count
                  default_max_steps count_random count_random
  = Ok (demo_model, drawn count_random 12) /\
  reachable_from demo_model demo_next /\
  forall a, In a (agents demo_next) ->
    (current_step demo_next = 0 -> next_pos a = None) /\
    (1 <= current_step demo_next -> next_pos a = Some (pos a)) /\
    advance (grid demo_next) a = Ok a.
Proof.
  split; [exact demo_model_init|]. split; [exact demo_next_reachable|].
  exact (pending_move_is_consumed _ _ _ _ _ _ _ _ _ _
           demo_model_init demo_next_reachable).
Defined.

(* ------------------------------------------------------------------ *)
(** * The registry over a run *)

Lemma step_dirty_incl (m m' : DummyModel) (out : list Summary) :
  step m = Ok (m', out) -> incl (dirty_tiles m') (dirty_tiles m).
Proof.
  intros Hs. destruct (step_inv _ _ _ Hs) as [[_ [-> _]]|[_ [ags' Ht]]].
  - apply incl_refl.
  - rewrite (tr_dirty _ _ _ _ Ht). intros t Hin. apply filter_In in Hin. tauto.
Qed.

Lemma reachable_dirty_incl (m m' : DummyModel) :
  reachable_from m m' -> incl (dirty_tiles m') (dirty_tiles m).
Proof.
  induction 1 as [|m1 m2 out _ IH Hs]; [apply incl_refl|].
  eapply incl_tran; [eapply step_dirty_incl; eauto|assumption].
Qed.

(** X8: no tile is ever added to the registry: in every state reachable
    from construction the dirty tiles are pairwise distinct cells of the
    grid, all among the tiles spawned at construction and, later on, among
    the tiles of any earlier state; when there is at least one agent the
    start cell [(0, N-1)] is never one of them. *)
Theorem dirty_tiles_only_shrink
    (h w ac dc ms : Z) (gr mr : Random) (m0 m : DummyModel) (g' : Random) :
  DummyModel_init h w ac dc ms gr mr = Ok (m0, g') ->
  reachable_from m0 m ->
  NoDup (dirty_tiles m) /\
  incl (dirty_tiles m) (dirty_tiles m0) /\
  (forall m', reachable_from m m' -> incl (dirty_tiles m') (dirty_tiles m)) /\
  (forall x y, In (x, y) (dirty_tiles m) ->
     0 <= x < w /\ 0 <= y < h /\ (1 <= ac -> (x, y) <> (0, N - 1))).
Proof.
  intros Hi Hr.
  destruct (reachable_balance _ _ _ _ _ _ _ _ _ _ Hi Hr) as [_ Hnd].
  pose proof (reachable_dirty_incl _ _ Hr) as Hincl.
  split; [assumption|]. split; [assumption|].
  split; [intros m'; apply reachable_dirty_incl|].
  intros x y Hin. apply Hincl in Hin.
  apply DummyModel_init_inv in Hi. destruct Hi as [_ [_ [_ [_ [Hfree _]]]]].
  apply Hfree in Hin. apply free_cells_In in Hin. simpl in Hin.
  destruct Hin as [[Hx Hy] [He _]].
  split; [assumption|]. split; [assumption|].
  intros Hac E. rewrite is_cell_empty_iff in He.
  apply (He _ (fresh_agents_start ac Hac)). cbn [pos DummyAgent_init].
  symmetry. exact E.
Qed.

Lemma dirty_tiles_only_shrink_witness :
  DummyModel_init N M default_agent_count default_dirty_count
                  default_max_steps count_random count_random
  = Ok (demo_model, drawn count_random 12) /\
  reachable_from demo_model demo_next /\
  NoDup (dirty_tiles demo_next) /\
  incl (dirty_tiles demo_next) (dirty_tiles demo_model).
Proof.
  split; [exact demo_model_init|]. split; [exact demo_next_reachable|].
  pose proof (dirty_tiles_only_shrink _ _ _ _ _ _ _ _ _ _
                demo_model_init demo_next_reachable) as H.
  exact (conj (proj1 H) (proj1 (proj2 H))).
Defined.

(* ------------------------------------------------------------------ *)
(** * The commit phase on its own *)

(** X9: [advance] never raises, whatever the agent holds: it returns the
    agent as it is when there is no pending position, when the pending
    position is outside the grid and when it is the current position;
    otherwise it moves the agent there and counts one move.  It keeps the
    identifier and the pending position, and an agent inside the grid stays
    inside. *)
Theorem advance_never_raises (g : MultiGrid) (a : DummyAgent) :
  exists a', advance g a = Ok a' /\
    unique_id a' = unique_id a /\ next_pos a' = next_pos a /\
    (next_pos a = None -> a' = a) /\
    (forall np, next_pos a = Some np -> in_bounds g np = false -> a' = a) /\
    (next_pos a = Some (pos a) -> a' = a) /\
    (forall np, next_pos a = Some np -> in_bounds g np = true ->
                np <> pos a ->
                pos a' = np /\ moves_made a' = moves_made a + 1) /\
    (in_bounds g (pos a) = true -> in_bounds g (pos a') = true).
Proof.
  exists (committed g a). split; [apply advance_spec|].
  unfold committed.
  destruct (next_pos a) as [q|] eqn:E;
    [destruct (in_bounds g q) eqn:Hb;
     [destruct (coord_eqb q (pos a)) eqn:He|]|];
    cbn [andb negb unique_id next_pos pos moves_made];
    (split; [reflexivity|]); (split; [auto|]);
    (split; [intros E'; congruence|]);
    (split; [intros np E' Hb'; inversion E'; subst; congruence|]).
  - apply coord_eqb_eq in He. split; [reflexivity|].
    split; [|auto]. intros np E' _ Hne. inversion E'; subst. congruence.
  - split.
    + intros E'. inversion E' as [Hq]. rewrite Hq, coord_eqb_refl in He.
      discriminate.
    + split; [|intros _; exact Hb].
      intros np E' _ _. inversion E'; subst. split; reflexivity.
  - split; [reflexivity|]. split; [|auto].
    intros np E' Hb' _. inversion E'; subst. congruence.
  - split; [reflexivity|]. split; [|auto]. intros np E'. discriminate.
Qed.

(* ------------------------------------------------------------------ *)
(** * One tick of one agent *)






(* ------------------------------------------------------------------ *)
(** * How many tiles construction spawns *)

(** X11: a successful construction on a [width] by [height] grid leaves
    [min(dirty_count, number of free cells)] dirty tiles (none when
    [dirty_count] is negative), where the free cells are all the
    [width * height] cells, less the start cell when there is at least one
    agent: however many agents there are, they take one cell only. *)
Theorem init_dirty_tiles_number
    (h w ac dc ms : Z) (gr mr : Random) (m0 : DummyModel) (g' : Random) :
  DummyModel_init h w ac dc ms gr mr = Ok (m0, g') ->
  len (dirty_tiles m0)
  = Z.max 0 (Z.min dc (Z.max 0 w * Z.max 0 h - (if 1 <=? ac then 1 else 0))).
Proof.
  intros Hi. pose proof (DummyModel_init_inv _ _ _ _ _ _ _ _ _ Hi) as Hinv.
  cbv zeta in Hinv. destruct Hinv as [Hm [_ [Hl [_ [_ Hb]]]]].
  rewrite blank_free_cells_len in Hl.
  - unfold len. rewrite Hl. lia.
  - intros Hac.
    assert (Hg : grid m0 = mkGrid w h) by (rewrite Hm; reflexivity).
    rewrite <- Hg. apply Hb. rewrite Hm. cbn [agents set_dirty_tiles blank_model].
    intros E. pose proof (fresh_agents_start ac Hac) as Hin.
    rewrite E in Hin. destruct Hin.
Qed.

Lemma init_dirty_tiles_number_witness :
  DummyModel_init N M default_agent_count default_dirty_count
                  default_max_steps count_random count_random
  = Ok (demo_model, drawn count_random 12) /\
  len (dirty_tiles demo_model)
  = Z.max 0 (Z.min default_dirty_count
               (Z.max 0 M * Z.max 0 N
                - (if 1 <=? default_agent_count then 1 else 0))).
Proof.
  split; [exact demo_model_init|].
  exact (init_dirty_tiles_number _ _ _ _ _ _ _ _ _ demo_model_init).
Defined.

(* ------------------------------------------------------------------ *)
(** * The start cell and the height argument *)

(** X12: the agents are placed on [(0, N-1)] with the module constant
    [N = 6], not with the [height] argument.  On a grid of positive size
    and with at least one agent, construction raises [IndexError] when
    [height < N], whatever the other arguments are, and succeeds when
    [height >= N]. *)
Theorem init_needs_start_cell
    (h w ac dc ms : Z) (gr mr : Random) :
  1 <= w -> 1 <= h -> 1 <= ac ->
  (h < N -> DummyModel_init h w ac dc ms gr mr = Raise IndexError) /\
  (N <= h -> exists m g', DummyModel_init h w ac dc ms gr mr = Ok (m, g')).
Proof.
  intros Hw Hh Hac. split.
  - intros Hlt. rewrite DummyModel_init_unfold.
    replace ((w <? 0) || (h <? 0)) with false
      by (symmetry; apply orb_false_iff; rewrite !Z.ltb_ge; lia).
    rewrite place_agents_out.
    + reflexivity.
    + destruct (in_bounds (mkGrid w h) (0, N - 1)) eqn:E; [|reflexivity].
      apply in_bounds_iff in E. simpl in E. unfold N in *. lia.
    + intros E. pose proof (proj2 (range_In ac 0)) as Hin.
      rewrite E in Hin. apply Hin. lia.
  - intros Hge. apply DummyModel_init_ok. right. split; assumption.
Qed.

Lemma init_needs_start_cell_witness :
  1 <= 2 /\ 1 <= 2 /\ 1 <= 3 /\
  (2 < N -> DummyModel_init 2 2 3 10 100 count_random count_random
            = Raise IndexError).
Proof.
  repeat (split; [lia|]).
  apply (init_needs_start_cell 2 2 3 10 100 count_random count_random); lia.
Defined.

(* ------------------------------------------------------------------ *)
(** * Spawning again *)

(** X13: [spawn_dirty_tiles] is idempotent: called again right after a
    first call, on any model and with any generator, it adds no tile, draws
    nothing and returns the model unchanged, because the first call either
    met [dirty_count] or used up every free cell. *)
Theorem spawn_again_adds_nothing (m : DummyModel) (r : Random) :
  exists m1 r1, spawn_dirty_tiles m r = Ok (m1, r1) /\
    forall r', spawn_dirty_tiles m1 r' = Ok (m1, r').
Proof.
  destruct (spawn_dirty_tiles_spec m r) as [new [Hs [Hl [Hnd Hi]]]].
  exists (set_dirty_tiles m (dirty_tiles m ++ new)), (drawn r (length new)).
  split; [assumption|]. intros r'.
  set (m1 := set_dirty_tiles m (dirty_tiles m ++ new)).
  destruct (spawn_dirty_tiles_spec m1 r') as [new' [Hs' [Hl' _]]].
  assert (Hz : length new' = 0%nat).
  { rewrite Hl'. cbn [m1 set_dirty_tiles dirty_tiles dirty_count].
    rewrite len_app.
    pose proof (len_nonneg (free_cells m)) as Hf.
    pose proof (len_nonneg (free_cells m1)) as Hf1.
    destruct (Z_le_gt_dec (dirty_count m - len (dirty_tiles m))
                          (len (free_cells m))) as [Hle|Hgt].
    - unfold len in *. lia.
    - assert (Hall : incl (free_cells m) new).
      { apply NoDup_length_incl; [assumption| |assumption].
        unfold len in *. lia. }
      assert (Hnil : free_cells m1 = []).
      { destruct (free_cells m1) as [|[x y] l] eqn:E; [reflexivity|exfalso].
        assert (Hin : In (x, y) (free_cells m1)) by (rewrite E; now left).
        apply free_cells_In in Hin.
        cbn [m1 set_dirty_tiles grid agents dirty_tiles] in Hin.
        destruct Hin as [Hb [He Hd]]. apply Hd. apply in_or_app. right.
        apply Hall. apply free_cells_In. repeat split; try tauto.
        intros Hin. apply Hd. apply in_or_app. now left. }
      rewrite Hnil. change (len (@nil Coordinate)) with 0. lia. }
  destruct new' as [|c l]; [|discriminate].
  rewrite Hs'. cbn [length]. rewrite app_nil_r. f_equal. f_equal.
  unfold drawn. destruct r' as [d c]. cbn [draws cursor].
  now rewrite Nat.add_0_r.
Qed.

(* ------------------------------------------------------------------ *)
(** * The animation driver *)

Lemma update_positive (f : Z) (m : DummyModel) :
  0 < f -> update f m = step m.
Proof.
  intros Hf. unfold update. apply Z.ltb_lt in Hf. rewrite Hf.
  destruct (done m) eqn:Hd; [|reflexivity]. cbn [negb andb].
  now rewrite step_done.
Qed.

Lemma update_nonpositive (f : Z) (m : DummyModel) :
  f <= 0 -> update f m = Ok (m, []).
Proof.
  intros Hf. unfold update. apply Z.ltb_ge in Hf. now rewrite Hf.
Qed.

Lemma play_nonpositive (fs : list Z) (m : DummyModel) :
  Forall (fun f => f <= 0) fs -> play fs m = Ok (m, []).
Proof.
  induction 1 as [|f fs Hf _ IH]; [reflexivity|].
  cbn [play]. rewrite update_nonpositive by assumption. cbn [bind].
  now rewrite IH.
Qed.

Lemma play_done (fs : list Z) (m : DummyModel) :
  done m = true -> play fs m = Ok (m, []).
Proof.
  intros Hd. induction fs as [|f fs IH]; [reflexivity|].
  cbn [play]. unfold update. rewrite Hd, andb_false_r. cbn [bind].
  now rewrite IH.
Qed.

Lemma play_positive (fs : list Z) :
  Forall (fun f => 0 < f) fs ->
  forall (m : DummyModel) (trace : list DummyModel) (outs : list Summary),
    run (length fs) m = Ok (trace, outs) ->
    play fs m = Ok (last trace m, outs).
Proof.
  induction 1 as [|f fs Hf _ IH]; intros m trace outs Hr.
  - inversion Hr. reflexivity.
  - cbn [length] in Hr. apply run_succ_inv in Hr.
    destruct Hr as [m' [out [ms' [outs' [Hs [Hr [-> ->]]]]]]].
    cbn [play]. rewrite update_positive by assumption. rewrite Hs.
    cbn [bind]. rewrite (IH _ _ _ Hr). cbn [bind].
    now rewrite last_cons_default.
Qed.

Lemma range_succ_frames (n : Z) :
  0 <= n ->
  exists fs, range (n + 1) = 0 :: fs /\ Forall (fun f => 0 < f) fs /\
             length fs = Z.to_nat n.
Proof.
  intros Hn. unfold range.
  replace (Z.to_nat (n + 1)) with (S (Z.to_nat n)) by lia.
  cbn [seq map]. exists (map Z.of_nat (seq 1 (Z.to_nat n))).
  split; [reflexivity|]. split.
  - apply Forall_forall. intros f Hin. apply in_map_iff in Hin.
    destruct Hin as [k [<- Hk]]. apply in_seq in Hk. lia.
  - now rewrite length_map, length_seq.
Qed.

(** X14: [animate_agents] on a freshly constructed model.  Frame 0 never
    steps.  With a negative budget there is no frame at all and saving the
    animation raises [IndexError].  With a budget of 0 the only frame is
    frame 0: the model is left as constructed, not done, and no summary is
    printed.  With a budget of at least 1 the pass over the frames
    [0, 1, ..., max_steps] ends with the model done, [current_step] between 1
    and [max_steps], and exactly one summary printed.  Whenever the pass
    succeeds, a second pass changes nothing and prints nothing. *)
Theorem animation_pass
    (h w ac dc ms : Z) (gr mr : Random) (m0 : DummyModel) (g' : Random) :
  DummyModel_init h w ac dc ms gr mr = Ok (m0, g') ->
  update 0 m0 = Ok (m0, []) /\
  (ms <= -1 -> animate_agents m0 = Raise IndexError) /\
  (0 <= ms ->
   exists m outs, animate_agents m0 = Ok (m, outs) /\
     reachable_from m0 m /\
     (1 <= ms -> done m = true /\ 1 <= current_step m <= ms /\
                 outs = [print_summary m]) /\
     (ms = 0 -> m = m0 /\ done m = false /\ outs = []) /\
     animate_agents m = Ok (m, [])).
Proof.
  intros Hi. split; [apply update_nonpositive; lia|].
  destruct (init_fields _ _ _ _ _ _ _ _ _ Hi)
    as [_ [Hms [_ [_ [Hd0 _]]]]].
  unfold animate_agents. rewrite Hms. split.
  - intros Hneg.
    assert (E : range (ms + 1) = []).
    { unfold range. replace (Z.to_nat (ms + 1)) with 0%nat by lia. reflexivity. }
    rewrite E. reflexivity.
  - intros Hnn.
    destruct (range_succ_frames ms Hnn) as [fs [Hfs [Hall Hlen]]].
    destruct (Z_le_gt_dec 1 ms) as [Hpos|Hzero].
    + destruct (run_total (Z.to_nat ms) m0) as [trace [outs [Hr _]]].
      assert (Hn : Z.max 1 ms <= Z.of_nat (Z.to_nat ms)) by lia.
      pose proof (run_long_enough_done _ _ _ _ _ _ _ _ _ _ _ _ Hi Hn Hr)
        as Hdone.
      pose proof (run_final_reachable _ _ _ _ Hr) as Hreach.
      pose proof (reachable_history _ _ _ _ _ _ _ _ _ _ Hi Hreach) as Hh.
      destruct (reachable_config _ _ Hreach) as [_ [Hms' _]].
      assert (Hcs : 1 <= current_step (last trace m0) <= ms).
      { pose proof (hi_cs_bound _ _ Hh). destruct (hi_done _ _ Hh Hdone). lia. }
      pose proof (run_outputs _ _ _ _ Hd0 Hr) as Hout. rewrite Hdone in Hout.
      exists (last trace m0), outs. rewrite Hfs. cbn [play].
      rewrite update_nonpositive by lia. cbn [bind].
      rewrite <- Hlen in Hr. rewrite (play_positive _ Hall _ _ _ Hr).
      cbn [bind app is_nil]. split; [reflexivity|]. split; [assumption|].
      split; [intros _; repeat split; try assumption; lia|].
      split; [intros Hz; exfalso; lia|].
      rewrite Hms', Hms, Hfs.
      rewrite (play_done _ _ Hdone). reflexivity.
    + assert (Hfsnil : fs = []).
      { destruct fs; [reflexivity|]. simpl in Hlen. lia. }
      subst fs. exists m0, []. rewrite Hfs. cbn [play].
      rewrite update_nonpositive by lia. cbn [bind app is_nil].
      split; [reflexivity|]. split; [constructor|].
      split; [intros Hle; exfalso; lia|].
      split; [intros _; auto|].
      rewrite Hms, Hfs. cbn [play].
      rewrite update_nonpositive by lia. reflexivity.
Qed.

Lemma animation_pass_witness :
  DummyModel_init N M default_agent_count default_dirty_count
                  default_max_steps count_random count_random
  = Ok (demo_model, drawn count_random 12) /\
  (0 <= default_max_steps ->
   exists m outs, animate_agents demo_model = Ok (m, outs) /\
     reachable_from demo_model m /\
     (1 <= default_max_steps ->
      done m = true /\ 1 <= current_step m <= default_max_steps /\
      outs = [print_summary m]) /\
     (default_max_steps = 0 -> m = demo_model /\ done m = false /\ outs = []) /\
     animate_agents m = Ok (m, [])).
Proof.
  split; [exact demo_model_init|].
  exact (proj2 (proj2 (animation_pass _ _ _ _ _ _ _ _ _ demo_model_init))).
Defined.

(** A budget of -1: the model is built, and the animation has no frame to
    save. *)
Example animation_without_frames :
  match DummyModel_init N M 3 12 (-1) count_random count_random with
  | Ok (m, _) => animate_agents m = Raise IndexError
  | Raise _ => False
  end.
Proof. vm_compute. reflexivity. Qed.

(* ------------------------------------------------------------------ *)
(** * The last cleaning step *)

(** X15: in every state reachable from construction [last_cleaned_step] is
    [None] exactly while no tile has been cleaned; otherwise it is a tick
    number between 1 and [current_step]; and once the registry of a run that
    started with dirty tiles is empty it is [current_step] itself, which no
    later call changes. *)
Theorem last_cleaned_step_meaning
    (h w ac dc ms : Z) (gr mr : Random) (m0 m : DummyModel) (g' : Random) :
  DummyModel_init h w ac dc ms gr mr = Ok (m0, g') ->
  reachable_from m0 m ->
  (last_cleaned_step m = None <-> cleaned_count m = 0) /\
  (forall s, last_cleaned_step m = Some s -> 1 <= s <= current_step m) /\
  (dirty_tiles m = [] -> dirty_tiles m0 <> [] ->
   last_cleaned_step m = Some (current_step m) /\
   forall m', reachable_from m m' -> m' = m).
Proof.
  intros Hi Hr.
  pose proof (reachable_history _ _ _ _ _ _ _ _ _ _ Hi Hr) as Hh.
  split; [apply (hi_last_none _ _ Hh)|].
  split; [apply (hi_last_some _ _ Hh)|].
  intros Hnil Hne. split; [now apply (hi_last_all _ _ Hh)|].
  assert (Hd : done m = true).
  { destruct (done m) eqn:Hd; [reflexivity|exfalso].
    destruct (hi_running _ _ Hh Hd) as [Hz|[_ Hn]]; [|congruence].
    rewrite (hi_cs_zero _ _ Hh Hz) in Hnil. congruence. }
  intros m' Hr'. induction Hr' as [|m1 m2 out _ IH Hs]; [reflexivity|].
  subst m1. rewrite step_done in Hs by assumption. now inversion Hs.
Qed.

Lemma last_cleaned_step_meaning_witness :
  DummyModel_init N M 3 1 100 (const_random 10) (const_random 1)
  = Ok (one_tile_model, drawn (const_random 10) 1) /\
  reachable_from one_tile_model one_tile_next /\
  (last_cleaned_step one_tile_next = None <-> cleaned_count one_tile_next = 0) /\
  (forall s, last_cleaned_step one_tile_next = Some s ->
             1 <= s <= current_step one_tile_next) /\
  (dirty_tiles one_tile_next = [] -> dirty_tiles one_tile_model <> [] ->
   last_cleaned_step one_tile_next = Some (current_step one_tile_next) /\
   forall m', reachable_from one_tile_next m' -> m' = one_tile_next).
Proof.
  assert (Hr : reachable_from one_tile_model one_tile_next)
    by (eapply reach_step; [apply reach_init|apply one_tile_step]).
  split; [exact one_tile_init|]. split; [exact Hr|].
  exact (last_cleaned_step_meaning _ _ _ _ _ _ _ _ _ _ one_tile_init Hr).
Defined.

(* ------------------------------------------------------------------ *)
(** * How much randomness is used *)

(** X16: construction calls the module-level generator once per dirty
    tile it spawns and leaves the model's own generator as it was given;
    a call of [step] on a running model draws once per agent from the
    model's generator, and a call on a done model draws nothing. *)
Theorem random_draws_used
    (h w ac dc ms : Z) (gr mr : Random) (m0 m m' : DummyModel) (g' : Random)
    (out : list Summary) :
  DummyModel_init h w ac dc ms gr mr = Ok (m0, g') ->
  reachable_from m0 m ->
  step m = Ok (m', out) ->
  g' = drawn gr (length (dirty_tiles m0)) /\
  random m0 = mr /\
  random m' = (if done m then random m
               else drawn (random m) (Z.to_nat (Z.max 0 ac))).
Proof.
  intros Hi Hr Hs.
  pose proof (reachable_history _ _ _ _ _ _ _ _ _ _ Hi Hr) as Hh.
  destruct (init_fields _ _ _ _ _ _ _ _ _ Hi)
    as [_ [_ [_ [Ha [_ [_ [_ Hrand]]]]]]].
  pose proof (DummyModel_init_inv _ _ _ _ _ _ _ _ _ Hi) as Hinv.
  cbv zeta in Hinv. destruct Hinv as [_ [Hg _]].
  split; [assumption|]. split; [assumption|].
  destruct (step_inv _ _ _ Hs) as [[Hd [-> _]]|[Hd [ags' Ht]]]; rewrite Hd;
    [reflexivity|].
  rewrite (tr_random _ _ _ _ Ht). f_equal.
  rewrite <- (length_map unique_id), (hi_ids _ _ Hh), Ha, fresh_agents_ids.
  unfold range. rewrite length_map, length_seq. lia.
Qed.

Lemma random_draws_used_witness :
  DummyModel_init N M default_agent_count default_dirty_count
                  default_max_steps count_random count_random
  = Ok (demo_model, drawn count_random 12) /\
  reachable_from demo_model demo_model /\
  step demo_model = Ok (demo_next, []) /\
  random demo_next = drawn (random demo_model) 3.
Proof.
  split; [exact demo_model_init|]. split; [apply reach_init|].
  split; [exact demo_next_step|].
  exact (proj2 (proj2 (random_draws_used _ _ _ _ _ _ _ _ _ _ _ _
                         demo_model_init (reach_init _) demo_next_step))).
Defined.
